(** * Axmed chat widget: the conversation-state core of [App.tsx]

    A shallow embedding of the pure and stateful logic of the widget
    (configuration, input validation, persistence loading, the send,
    retry and feedback handlers) together with the properties its
    design document states about them. *)

From Stdlib Require Import ZArith NArith Ascii String Bool Lia Floats.
From stdpp Require Import base list gmap.

Local Open Scope Z_scope.

(** ** JavaScript strings

    A JavaScript string is a sequence of UTF-16 code units; [length]
    counts code units, as [String.prototype.length] does. *)

Definition jsstring := list N.

(** An ASCII literal as a JavaScript string. *)
Definition lit (s : string) : jsstring :=
  List.map N_of_ascii (list_ascii_of_string s).
Arguments lit s%_string.

Definition jsstring_eqb (a b : jsstring) : bool :=
  bool_decide (a = b).

(** The code units [String.prototype.trim] strips: WhiteSpace and
    LineTerminator of ECMA-262 (TAB, LF, VT, FF, CR, SP, NBSP, the
    Unicode space separators, LS, PS and the BOM). *)
Definition isWhiteSpace (c : N) : bool :=
  (((9 <=? c) && (c <=? 13)) || (c =? 32) || (c =? 160) || (c =? 5760)
   || ((8192 <=? c) && (c <=? 8202)) || (c =? 8232) || (c =? 8233)
   || (c =? 8239) || (c =? 8287) || (c =? 12288) || (c =? 65279))%N.

Fixpoint trimStart (s : jsstring) : jsstring :=
  match s with
  | c :: s' => if isWhiteSpace c then trimStart s' else s
  | [] => []
  end.

Definition trimEnd (s : jsstring) : jsstring := rev (trimStart (rev s)).

Definition trim (s : jsstring) : jsstring := trimEnd (trimStart s).

(** ** A backtracking matcher for the regular expressions the source uses

    The matcher follows the continuation semantics of ECMA-262
    (22.2.2): a matcher takes the current position and a continuation
    and returns the first success in backtracking order.  A position is
    the code unit just before it (for [\b]) and the input that remains. *)

Inductive regex : Type :=
| Eps                          (* the empty pattern *)
| Lit (c : N)                  (* a pattern character, under the [i] flag *)
| NotLit (c : N)               (* the class [^c], under the [i] flag *)
| WordB                        (* \b *)
| Cat (r1 r2 : regex)          (* r1 r2 *)
| StarG (r : regex)            (* r*, greedy *)
| NotAhead (r : regex).        (* (?!r) *)

(** Canonicalize (22.2.5.6) for a pattern without the [u] flag maps a
    code unit to its upper case, except that a code unit of 128 or more
    is never mapped below 128.  The patterns here hold ASCII characters
    only, and for those the comparison is decided by the ASCII letters:
    code units of 128 and more are left as they are. *)
Definition canonicalize (c : N) : N :=
  if ((97 <=? c) && (c <=? 122))%N then (c - 32)%N else c.

(** IsWordChar: the basic word characters [A-Za-z0-9_]. *)
Definition isWordChar (c : N) : bool :=
  (((65 <=? c) && (c <=? 90)) || ((97 <=? c) && (c <=? 122))
   || ((48 <=? c) && (c <=? 57)) || (c =? 95))%N.

Definition isWordAt (o : option N) : bool :=
  match o with Some c => isWordChar c | None => false end.

Definition Cont := option N -> jsstring -> option jsstring.
Definition Matcher := option N -> jsstring -> Cont -> option jsstring.

(** RepeatMatcher with min 0, max infinity, greedy: try one more
    iteration, which fails when it consumed nothing, and otherwise go
    on with the continuation.  Every iteration that is kept shortens the
    input, so the fuel [S (length s)] given by [run] never runs out. *)
Fixpoint repeatMatcher (m : Matcher) (fuel : nat)
    (prev : option N) (s : jsstring) (k : Cont) : option jsstring :=
  match fuel with
  | O => k prev s
  | S fuel' =>
      match m prev s (fun prev' s' =>
                        if (length s' =? length s)%nat then None
                        else repeatMatcher m fuel' prev' s' k) with
      | Some r => Some r
      | None => k prev s
      end
  end.

Fixpoint run (r : regex) (prev : option N) (s : jsstring) (k : Cont)
    : option jsstring :=
  match r with
  | Eps => k prev s
  | Lit c =>
      match s with
      | ch :: s' =>
          if (canonicalize ch =? canonicalize c)%N then k (Some ch) s' else None
      | [] => None
      end
  | NotLit c =>
      match s with
      | ch :: s' =>
          if (canonicalize ch =? canonicalize c)%N then None else k (Some ch) s'
      | [] => None
      end
  | WordB =>
      if xorb (isWordAt prev) (isWordAt (head s)) then k prev s else None
  | Cat r1 r2 => run r1 prev s (fun prev' s' => run r2 prev' s' k)
  | StarG r' => repeatMatcher (run r') (S (length s)) prev s k
  | NotAhead r' =>
      match run r' prev s (fun _ s' => Some s') with
      | Some _ => None
      | None => k prev s
      end
  end.

(** A match attempt at one position: what remains after the match. *)
Definition matchHere (re : regex) (prev : option N) (s : jsstring)
    : option jsstring :=
  run re prev s (fun _ s' => Some s').

(** [s.replace(re, '')] for a global [re]: the leftmost match is removed
    and the search goes on behind it; a position without a match (or
    with an empty one) keeps its code unit.  [skip] counts the code
    units of the current match still to drop. *)
Fixpoint replaceFrom (re : regex) (skip : nat) (prev : option N)
    (s : jsstring) : jsstring :=
  match s with
  | [] => []
  | ch :: s' =>
      match skip with
      | S n => replaceFrom re n (Some ch) s'
      | O =>
          match matchHere re prev s with
          | Some rest =>
              match (length s - length rest)%nat with
              | O => ch :: replaceFrom re O (Some ch) s'
              | S n => replaceFrom re n (Some ch) s'
              end
          | None => ch :: replaceFrom re O (Some ch) s'
          end
      end
  end.

Definition replaceAllEmpty (re : regex) (s : jsstring) : jsstring :=
  replaceFrom re O None s.

(** A word as a pattern: its characters one after the other. *)
Definition word (w : jsstring) : regex :=
  foldr (fun c r => Cat (Lit c) r) Eps w.

Definition ltSign : N := 60.   (* the code unit of < *)

Definition openTag : jsstring := lit "<script".
Definition closeTag : jsstring := lit "</script>".

(** The group the second star of the pattern repeats. *)
Definition scriptGroup : regex :=
  Cat (NotAhead (word closeTag)) (Cat (Lit ltSign) (StarG (NotLit ltSign))).

(** The pattern of [validateInput], flags [g] and [i]; piece by piece:
    [<script], [\b], [[^<]] starred, then the starred group made of the
    negative lookahead on [<\/script>], a [<] and [[^<]] starred, and
    last [<\/script>]. *)
Definition scriptRe : regex :=
  Cat (word openTag)
   (Cat WordB
    (Cat (StarG (NotLit ltSign))
     (Cat (StarG scriptGroup) (word closeTag)))).

(** ** validateInput *)

Definition MAX_MESSAGE_LENGTH : nat := 500.
Definition MIN_MESSAGE_LENGTH : nat := 1.

Record Validation := {
  valid : bool;
  error : option jsstring;
  sanitized : jsstring
}.

Definition validateInput (input : jsstring) : Validation :=
  let trimmed := trim input in
  if (length trimmed <? MIN_MESSAGE_LENGTH)%nat then
    {| valid := false; error := Some (lit "Message cannot be empty");
       sanitized := trimmed |}
  else if (MAX_MESSAGE_LENGTH <? length trimmed)%nat then
    {| valid := false;
       error := Some (lit "Message too long (max 500 characters)");
       sanitized := trimmed |}
  else
    {| valid := true; error := None;
       sanitized := replaceAllEmpty scriptRe trimmed |}.

(** *** The sanitizer as the design document words it

    "Strip any <script>...</script> fragment (case-insensitive,
    non-greedy across the shortest matching closing tag)": a fragment
    opens with [<script] in any case, where the tag name ends, and runs
    through the nearest [</script>] behind it, again in any case; the
    text is read left to right and every fragment found is left out. *)

Definition sameLetter (a b : N) : bool :=
  (canonicalize a =? canonicalize b)%N.

(** [stripPrefixCI w s]: what follows [w] at the head of [s], letters
    compared without case. *)
Fixpoint stripPrefixCI (w s : jsstring) : option jsstring :=
  match w with
  | [] => Some s
  | c :: w' =>
      match s with
      | ch :: s' => if sameLetter ch c then stripPrefixCI w' s' else None
      | [] => None
      end
  end.

(** What follows the first closing tag in [s]. *)
Fixpoint afterClosingTag (s : jsstring) : option jsstring :=
  match stripPrefixCI closeTag s with
  | Some rest => Some rest
  | None =>
      match s with
      | [] => None
      | _ :: s' => afterClosingTag s'
      end
  end.

(** A fragment at the head of [s]: what follows it. *)
Definition scriptFragment (s : jsstring) : option jsstring :=
  match stripPrefixCI openTag s with
  | Some body =>
      if isWordAt (head body) then None else afterClosingTag body
  | None => None
  end.

Fixpoint stripFragments (fuel : nat) (s : jsstring) : jsstring :=
  match fuel with
  | O => s
  | S fuel' =>
      match s with
      | [] => []
      | c :: s' =>
          match scriptFragment s with
          | Some rest => stripFragments fuel' rest
          | None => c :: stripFragments fuel' s'
          end
      end
  end.

Definition stripScriptFragments (s : jsstring) : jsstring :=
  stripFragments (length s) s.

(** ** JavaScript values, as [JSON.parse] produces them *)

#[local] Unset Elimination Schemes.
Inductive JsValue : Type :=
| JNull
| JBool (b : bool)
| JNumber (x : float)
| JString (s : jsstring)
| JArray (items : list JsValue)
| JObject (props : list (jsstring * JsValue)).
#[local] Set Elimination Schemes.

(** ToBoolean. *)
Definition truthy (v : JsValue) : bool :=
  match v with
  | JNull => false
  | JBool b => b
  | JNumber x => negb (PrimFloat.is_zero x || PrimFloat.is_nan x)
  | JString s => negb (jsstring_eqb s [])
  | JArray _ | JObject _ => true
  end.

Fixpoint lookupProp (name : jsstring) (props : list (jsstring * JsValue))
    : option JsValue :=
  match props with
  | [] => None
  | (k, v) :: props' =>
      if jsstring_eqb k name then Some v else lookupProp name props'
  end.

(** [v.name] for a value that is not null, and a name that no built-in
    prototype defines: an own property of an object, otherwise
    undefined ([None]). *)
Definition getProp (v : JsValue) (name : jsstring) : option JsValue :=
  match v with
  | JObject props => lookupProp name props
  | _ => None
  end.

(** [a || b], with [a] possibly undefined. *)
Definition orElse (a : option JsValue) (b : JsValue) : JsValue :=
  match a with
  | Some v => if truthy v then v else b
  | None => b
  end.

(** ** Configuration *)

(** The result of [parseInt]: a Number that is NaN, an infinity, the
    negative zero, or a Number whose value is an integer ([PInt 0] is
    the positive zero). *)
Inductive ParsedInt : Type :=
| PNaN
| PInfinity (negative : bool)
| PNegZero
| PInt (value : Z).

(** The binary64 nearest to a positive integer [n], ties to even, as an
    integer: up to 53 bits [n] is kept; beyond, the bits below the
    leading 53 are rounded off. *)
Definition roundBinary64 (n : Z) : Z :=
  let bits := Z.log2 n + 1 in
  if bits <=? 53 then n
  else
    let shift := bits - 53 in
    let q := n / 2 ^ shift in
    let r := n mod 2 ^ shift in
    let half := 2 ^ (shift - 1) in
    let q' := if (half <? r) || ((r =? half) && Z.odd q) then q + 1 else q in
    q' * 2 ^ shift.

(** The Number value for [sign * mathInt], with [mathInt >= 0], as
    [parseInt] returns it: -0 for a negative zero, an infinity when the
    rounded value reaches 2^1024. *)
Definition numberOf (negative : bool) (mathInt : Z) : ParsedInt :=
  if mathInt =? 0 then (if negative then PNegZero else PInt 0)
  else
    let r := roundBinary64 mathInt in
    if 2 ^ 1024 <=? r then PInfinity negative
    else PInt (if negative then - r else r).

Definition isDigit (c : N) : bool := ((48 <=? c) && (c <=? 57))%N.

(** The decimal digits at the head of [s], read as an integer on top of
    [acc]; [None] when there is none and [started] is false.  Every
    digit is read, as the engines do (ECMA-262 also lets an engine read
    the digits behind the 20th significant one as 0). *)
Fixpoint readDigits (started : bool) (acc : Z) (s : jsstring) : option Z :=
  match s with
  | c :: s' =>
      if isDigit c then readDigits true (10 * acc + (Z.of_N c - 48)) s'
      else if started then Some acc else None
  | [] => if started then Some acc else None
  end.

Definition parseInt10 (s : jsstring) : ParsedInt :=
  let t := trimStart s in
  let '(negative, digits) :=
    match t with
    | c :: t' =>
        if (c =? 45)%N then (true, t')
        else if (c =? 43)%N then (false, t')
        else (false, t)
    | [] => (false, t)
    end in
  match readDigits false 0 digits with
  | Some n => numberOf negative n
  | None => PNaN
  end.

(** [URLSearchParams]: the name and value pairs of the query string, in
    order; [get] gives the first value of a name, or null. *)
Definition URLSearchParams := list (jsstring * jsstring).

Fixpoint get (params : URLSearchParams) (name : jsstring) : option jsstring :=
  match params with
  | [] => None
  | (k, v) :: params' =>
      if jsstring_eqb k name then Some v else get params' name
  end.

(** [s.split(',')] and friends. *)
Fixpoint split (sep : N) (s : jsstring) : list jsstring :=
  match s with
  | [] => [[]]
  | c :: s' =>
      if (c =? sep)%N then [] :: split sep s'
      else
        match split sep s' with
        | piece :: pieces => (c :: piece) :: pieces
        | [] => [[c]]
        end
  end.

Definition isNonEmpty (s : jsstring) : bool :=
  match s with [] => false | _ => true end.

Definition splitList (s : jsstring) : list jsstring :=
  List.filter isNonEmpty (List.map trim (split 44 s)).

(** [x || d] for a string or null [x]. *)
Definition orDefault (x : option jsstring) (d : jsstring) : jsstring :=
  match x with
  | Some s => if isNonEmpty s then s else d
  | None => d
  end.

(** [x || null]. *)
Definition orNull (x : option jsstring) : option jsstring :=
  match x with
  | Some s => if isNonEmpty s then Some s else None
  | None => None
  end.

Definition DEFAULT_SUGGESTIONS : list jsstring :=
  [ lit "What is Axmed?"; lit "Who can buy on Axmed?";
    lit "How does ordering work?"; lit "How do offers work?";
    lit "How is quality ensured?" ].

Definition DEFAULT_ALLOWED_ORIGINS : list jsstring :=
  [ lit "https://axmed.com"; lit "https://ax-derrick.github.io" ].

Record Config := {
  webhookUrl : jsstring;
  title : jsstring;
  greeting : jsstring;
  subtitle : jsstring;
  placeholder : jsstring;
  suggestions : option (list jsstring);       (* [None]: false *)
  primaryColor : option jsstring;
  fontFamily : option jsstring;
  borderRadius : option ParsedInt;            (* [None]: null *)
  logoUrl : option jsstring;
  autoOpen : bool;
  showCloseButton : bool;
  disclaimerText : option jsstring;
  allowedOrigins : list jsstring
}.

(** [getConfig], from the parsed query string and the build-time value
    of [import.meta.env.VITE_WEBHOOK_URL]. *)
Definition getConfig (params : URLSearchParams)
    (VITE_WEBHOOK_URL : option jsstring) : Config :=
  let suggestionsParam := get params (lit "suggestions") in
  let suggestions :=
    match suggestionsParam with
    | Some s =>
        if jsstring_eqb s (lit "false") then None
        else if isNonEmpty s then Some (splitList s)
        else Some DEFAULT_SUGGESTIONS
    | None => Some DEFAULT_SUGGESTIONS
    end in
  let originsParam := get params (lit "allowedOrigins") in
  let allowedOrigins :=
    match orNull originsParam with
    | Some s => splitList s
    | None => DEFAULT_ALLOWED_ORIGINS
    end in
  {| webhookUrl :=
       orDefault (get params (lit "webhookUrl"))
                 (orDefault VITE_WEBHOOK_URL []);
     title := orDefault (get params (lit "title")) (lit "Ask Axmed");
     greeting := orDefault (get params (lit "greeting")) (lit "Hi there");
     subtitle :=
       orDefault (get params (lit "subtitle"))
                 (lit "What would you like" ++ [10%N]
                  ++ lit "to dig deeper on today?");
     placeholder :=
       orDefault (get params (lit "placeholder")) (lit "Type your message...");
     suggestions := suggestions;
     primaryColor := orNull (get params (lit "primaryColor"));
     fontFamily := orNull (get params (lit "fontFamily"));
     borderRadius :=
       match orNull (get params (lit "borderRadius")) with
       | Some s => Some (parseInt10 s)
       | None => None
       end;
     logoUrl := orNull (get params (lit "logoUrl"));
     autoOpen :=
       match get params (lit "autoOpen") with
       | Some s => jsstring_eqb s (lit "true")
       | None => false
       end;
     showCloseButton :=
       match get params (lit "showCloseButton") with
       | Some s => negb (jsstring_eqb s (lit "false"))
       | None => true
       end;
     disclaimerText := orNull (get params (lit "disclaimerText"));
     allowedOrigins := allowedOrigins |}.

(** ** Persistence helpers *)

(** What [localStorage.getItem] gives for a key: an exception (storage
    not accessible), null, the empty string, or a non-empty text.  A
    text is given by what [JSON.parse] makes of it: a value, or [None]
    when it throws a SyntaxError. *)
Inductive StoredItem : Type :=
| GetItemThrows
| Absent
| EmptyText
| Text (parsed : option JsValue).

(** [try { stored ? JSON.parse(stored) : dflt } catch { dflt }] *)
Definition loadOr (dflt : JsValue) (stored : StoredItem) : JsValue :=
  match stored with
  | GetItemThrows => dflt
  | Absent => dflt
  | EmptyText => dflt
  | Text (Some v) => v
  | Text None => dflt
  end.

Definition loadMessages (stored : StoredItem) : JsValue :=
  loadOr (JArray []) stored.

Definition loadFeedback (stored : StoredItem) : JsValue :=
  loadOr (JObject []) stored.

Definition isArray (v : JsValue) : bool :=
  match v with JArray _ => true | _ => false end.

(** A feedback map: an object that is not an array. *)
Definition isPlainObject (v : JsValue) : bool :=
  match v with JObject _ => true | _ => false end.

(** ** The conversation state and its handlers *)

Inductive Sender : Type := User | Ai.

Inductive Vote : Type := Up | Down.

Record ChatMessage := {
  id : jsstring;
  content : JsValue;
  sender : Sender;
  timestamp : jsstring;
  replyTo : option jsstring;
  isSystem : option bool;
  failedInput : option jsstring
}.

(** The id and the ISO timestamp a new message gets: the id is built
    from [Date.now()] and [Math.random()], so both are inputs here. *)
Record Stamp := {
  stampId : jsstring;
  stampTime : jsstring
}.

(** What a handler reads from its environment when it is called. *)
Record Env := {
  now : Z;                      (* Date.now() at the rate gate *)
  stamp : Stamp;                (* for the message the call creates *)
  freshSessionId : jsstring     (* the id getSessionId would generate *)
}.

(** A POST to the webhook, by its JSON body. *)
Inductive Request : Type :=
| SendRequest (url sessionId messageId chatInput : jsstring)
| FeedbackRequest (url sessionId messageId : jsstring)
    (userMessageId : option jsstring) (feedbackType : Vote).

Inductive ParentEvent : Type :=
| EvClose
| EvOpen
| EvMessageSent (data : ChatMessage)
| EvFeedback (messageId : jsstring) (type : Vote)
| EvTyping (isTyping : bool).

(** The component state ([useState]), the refs ([useRef]) and the parts
    of the outside world the handlers write to.  A handler reads the
    state of the render it was created in; state updates are applied in
    the order they are queued. *)
Record AppState := {
  messages : list ChatMessage;
  feedback : gmap jsstring Vote;
  inputValue : jsstring;
  isLoading : bool;
  lastSendRef : Z;
  lastFeedbackRef : Z;
  isTypingRef : bool;
  typingTimeoutRef : bool;                     (* a timer is pending *)
  storedSessionId : option jsstring;           (* localStorage, session key *)
  storedFeedback : option (gmap jsstring Vote);(* localStorage, feedback key *)
  requests : list Request;                     (* fetch calls, oldest first *)
  posted : list (jsstring * ParentEvent)       (* postMessage calls *)
}.

Definition setMessages (f : list ChatMessage -> list ChatMessage)
    (st : AppState) : AppState :=
  {| messages := f (messages st); feedback := feedback st;
     inputValue := inputValue st; isLoading := isLoading st;
     lastSendRef := lastSendRef st; lastFeedbackRef := lastFeedbackRef st;
     isTypingRef := isTypingRef st; typingTimeoutRef := typingTimeoutRef st;
     storedSessionId := storedSessionId st;
     storedFeedback := storedFeedback st;
     requests := requests st; posted := posted st |}.

Definition setFeedback (fb : gmap jsstring Vote) (st : AppState) : AppState :=
  {| messages := messages st; feedback := fb;
     inputValue := inputValue st; isLoading := isLoading st;
     lastSendRef := lastSendRef st; lastFeedbackRef := lastFeedbackRef st;
     isTypingRef := isTypingRef st; typingTimeoutRef := typingTimeoutRef st;
     storedSessionId := storedSessionId st;
     storedFeedback := storedFeedback st;
     requests := requests st; posted := posted st |}.

Definition saveFeedback (fb : gmap jsstring Vote) (st : AppState) : AppState :=
  {| messages := messages st; feedback := feedback st;
     inputValue := inputValue st; isLoading := isLoading st;
     lastSendRef := lastSendRef st; lastFeedbackRef := lastFeedbackRef st;
     isTypingRef := isTypingRef st; typingTimeoutRef := typingTimeoutRef st;
     storedSessionId := storedSessionId st;
     storedFeedback := Some fb;
     requests := requests st; posted := posted st |}.

Definition setInputValue (v : jsstring) (st : AppState) : AppState :=
  {| messages := messages st; feedback := feedback st;
     inputValue := v; isLoading := isLoading st;
     lastSendRef := lastSendRef st; lastFeedbackRef := lastFeedbackRef st;
     isTypingRef := isTypingRef st; typingTimeoutRef := typingTimeoutRef st;
     storedSessionId := storedSessionId st;
     storedFeedback := storedFeedback st;
     requests := requests st; posted := posted st |}.

Definition setIsLoading (b : bool) (st : AppState) : AppState :=
  {| messages := messages st; feedback := feedback st;
     inputValue := inputValue st; isLoading := b;
     lastSendRef := lastSendRef st; lastFeedbackRef := lastFeedbackRef st;
     isTypingRef := isTypingRef st; typingTimeoutRef := typingTimeoutRef st;
     storedSessionId := storedSessionId st;
     storedFeedback := storedFeedback st;
     requests := requests st; posted := posted st |}.

Definition setLastSendRef (t : Z) (st : AppState) : AppState :=
  {| messages := messages st; feedback := feedback st;
     inputValue := inputValue st; isLoading := isLoading st;
     lastSendRef := t; lastFeedbackRef := lastFeedbackRef st;
     isTypingRef := isTypingRef st; typingTimeoutRef := typingTimeoutRef st;
     storedSessionId := storedSessionId st;
     storedFeedback := storedFeedback st;
     requests := requests st; posted := posted st |}.

Definition setLastFeedbackRef (t : Z) (st : AppState) : AppState :=
  {| messages := messages st; feedback := feedback st;
     inputValue := inputValue st; isLoading := isLoading st;
     lastSendRef := lastSendRef st; lastFeedbackRef := t;
     isTypingRef := isTypingRef st; typingTimeoutRef := typingTimeoutRef st;
     storedSessionId := storedSessionId st;
     storedFeedback := storedFeedback st;
     requests := requests st; posted := posted st |}.

Definition setTyping (typing timer : bool) (st : AppState) : AppState :=
  {| messages := messages st; feedback := feedback st;
     inputValue := inputValue st; isLoading := isLoading st;
     lastSendRef := lastSendRef st; lastFeedbackRef := lastFeedbackRef st;
     isTypingRef := typing; typingTimeoutRef := timer;
     storedSessionId := storedSessionId st;
     storedFeedback := storedFeedback st;
     requests := requests st; posted := posted st |}.

Definition setStoredSessionId (sid : jsstring) (st : AppState) : AppState :=
  {| messages := messages st; feedback := feedback st;
     inputValue := inputValue st; isLoading := isLoading st;
     lastSendRef := lastSendRef st; lastFeedbackRef := lastFeedbackRef st;
     isTypingRef := isTypingRef st; typingTimeoutRef := typingTimeoutRef st;
     storedSessionId := Some sid;
     storedFeedback := storedFeedback st;
     requests := requests st; posted := posted st |}.

Definition fetch (r : Request) (st : AppState) : AppState :=
  {| messages := messages st; feedback := feedback st;
     inputValue := inputValue st; isLoading := isLoading st;
     lastSendRef := lastSendRef st; lastFeedbackRef := lastFeedbackRef st;
     isTypingRef := isTypingRef st; typingTimeoutRef := typingTimeoutRef st;
     storedSessionId := storedSessionId st;
     storedFeedback := storedFeedback st;
     requests := requests st ++ [r]; posted := posted st |}.

Definition postMessage (origin : jsstring) (data : ParentEvent)
    (st : AppState) : AppState :=
  {| messages := messages st; feedback := feedback st;
     inputValue := inputValue st; isLoading := isLoading st;
     lastSendRef := lastSendRef st; lastFeedbackRef := lastFeedbackRef st;
     isTypingRef := isTypingRef st; typingTimeoutRef := typingTimeoutRef st;
     storedSessionId := storedSessionId st;
     storedFeedback := storedFeedback st;
     requests := requests st; posted := posted st ++ [(origin, data)] |}.

Definition append (m : ChatMessage) (st : AppState) : AppState :=
  setMessages (fun prev => prev ++ [m]) st.

Definition RATE_LIMIT_MS : Z := 2000.
Definition API_TIMEOUT_MS : Z := 30000.

(** The gate written at the head of [sendMessage] and [handleFeedback]:
    [if (now - last < RATE_LIMIT_MS) return; last = now]. [None] is the
    early return, [Some] carries the new value of the ref. *)
Definition rateGate (last now : Z) : option Z :=
  if now - last <? RATE_LIMIT_MS then None else Some now.

(** [prev.findIndex(p)]: the first index where [p] holds, or -1. *)
Fixpoint findIndex {A} (p : A -> bool) (l : list A) : Z :=
  match l with
  | [] => -1
  | x :: l' =>
      if p x then 0
      else let i := findIndex p l' in if i <? 0 then -1 else i + 1
  end.

(** The state update of [handleRetry]. *)
Definition removeRetryPair (errorMsgId : jsstring) (prev : list ChatMessage)
    : list ChatMessage :=
  let errorIdx := findIndex (fun m => jsstring_eqb (id m) errorMsgId) prev in
  if errorIdx <? 1 then prev
  else take (Z.to_nat (errorIdx - 1)) prev ++ drop (Z.to_nat (errorIdx + 1)) prev.

(** What the awaited [fetch] of [sendMessage] ends in: a rejection by
    the network, the abort of the 30 second timer, or a response, whose
    text is given by what [JSON.parse] makes of it ([None]: it throws). *)
Inductive FetchOutcome : Type :=
| NetworkError
| Aborted
| Response (status : Z) (body : option JsValue).

Inductive Exn : Type :=
| TypeError
| SyntaxError
| StatusError (status : Z)      (* new Error(`Error: ${response.status}`) *)
| AbortError.                   (* a DOMException named AbortError *)

(** [response.ok] *)
Definition ok (status : Z) : bool := (200 <=? status) && (status <=? 299).

(** [data.output || data.text || data.message || '...'] *)
Definition replyContent (data : JsValue) : JsValue :=
  orElse (getProp data (lit "output"))
    (orElse (getProp data (lit "text"))
       (orElse (getProp data (lit "message"))
          (JString (lit "Sorry, I could not process that request.")))).

(** The body of the [try] in [sendMessage] behind the [await]: the
    content of the reply, or the exception that is thrown. *)
Definition readReply (outcome : FetchOutcome) : Exn + JsValue :=
  match outcome with
  | NetworkError => inl TypeError
  | Aborted => inl AbortError
  | Response status body =>
      if negb (ok status) then inl (StatusError status)
      else
        match body with
        | None => inl SyntaxError
        | Some JNull => inl TypeError          (* data.output on null *)
        | Some data => inr (replyContent data)
        end
  end.

Definition isTimeout (e : Exn) : bool :=
  match e with AbortError => true | _ => false end.

(** A handler either returns, or is suspended at its [await] with what
    its continuation has captured. *)
Inductive Step (P : Type) : Type :=
| Returned (st : AppState)
| Awaiting (st : AppState) (pending : P).
Arguments Returned {P} st.
Arguments Awaiting {P} st pending.

Record PendingSend := {
  userMessage : ChatMessage;
  validation : Validation
}.

Section Widget.

Variable config : Config.
Variable isEmbedded : bool.      (* window.parent !== window *)

Definition postToParent (data : ParentEvent) (st : AppState) : AppState :=
  if isEmbedded then
    foldl (fun st origin => postMessage origin data st) st
          (allowedOrigins config)
  else st.

Definition getSessionId (fresh : jsstring) (st : AppState)
    : jsstring * AppState :=
  match orNull (storedSessionId st) with
  | Some sessionId => (sessionId, st)
  | None => (fresh, setStoredSessionId fresh st)
  end.

Definition systemMessage (s : Stamp) (text : jsstring)
    (failed : option jsstring) : ChatMessage :=
  {| id := stampId s; content := JString text; sender := Ai;
     timestamp := stampTime s; replyTo := None; isSystem := Some true;
     failedInput := failed |}.

(** [sendMessage] up to its [await fetch(...)]. *)
Definition sendMessage_begin (st : AppState) (env : Env) (text : jsstring)
    : Step PendingSend :=
  if isLoading st then Returned st
  else
    match rateGate (lastSendRef st) (now env) with
    | None => Returned st
    | Some t =>
        let st := setLastSendRef t st in
        if negb (isNonEmpty (webhookUrl config)) then
          let errMsg :=
            systemMessage (stamp env)
              (lit "Chat is not configured. No webhook URL found.") None in
          Returned (append errMsg st)
        else
          let validation := validateInput text in
          if negb (valid validation) then Returned st
          else
            let st := setIsLoading true st in
            let userMessage :=
              {| id := stampId (stamp env);
                 content := JString (sanitized validation);
                 sender := User; timestamp := stampTime (stamp env);
                 replyTo := None; isSystem := None; failedInput := None |} in
            let st := append userMessage st in
            let st := setInputValue [] st in
            let st :=
              if isTypingRef st then
                postToParent (EvTyping false) (setTyping false false st)
              else setTyping false false st in
            let '(sessionId, st) := getSessionId (freshSessionId env) st in
            let st :=
              fetch (SendRequest (webhookUrl config) sessionId
                       (id userMessage) (sanitized validation)) st in
            Awaiting st {| userMessage := userMessage;
                           validation := validation |}
    end.

(** [sendMessage] behind the [await], run on the state of that time. *)
Definition sendMessage_resume (p : PendingSend) (outcome : FetchOutcome)
    (s : Stamp) (st : AppState) : AppState :=
  let st :=
    match readReply outcome with
    | inr reply =>
        let aiMessage :=
          {| id := stampId s; content := reply; sender := Ai;
             timestamp := stampTime s;
             replyTo := Some (id (userMessage p));
             isSystem := None; failedInput := None |} in
        postToParent (EvMessageSent (userMessage p)) (append aiMessage st)
    | inl e =>
        let errorMessage :=
          systemMessage s
            (if isTimeout e then lit "The request timed out."
             else lit "Sorry, something went wrong.")
            (Some (sanitized (validation p))) in
        append errorMessage st
    end in
  setIsLoading false st.

(** [sendMessage] run to its end with nothing happening in between. *)
Definition sendMessage (st : AppState) (env : Env) (text : jsstring)
    (outcome : FetchOutcome) (s : Stamp) : AppState :=
  match sendMessage_begin st env text with
  | Returned st' => st'
  | Awaiting st' p => sendMessage_resume p outcome s st'
  end.

Definition handleRetry (st : AppState) (env : Env)
    (errorMsgId originalInput : jsstring) : Step PendingSend :=
  sendMessage_begin (setMessages (removeRetryPair errorMsgId) st)
                    env originalInput.

(** [handleFeedback] up to its [await fetch(...)]. *)
Definition handleFeedback_begin (st : AppState) (env : Env)
    (messageId : jsstring) (type : Vote) : Step Vote :=
  match rateGate (lastFeedbackRef st) (now env) with
  | None => Returned st
  | Some t =>
      let st := setLastFeedbackRef t st in
      let newFeedback := <[messageId := type]> (feedback st) in
      let st := setFeedback newFeedback st in
      let st := saveFeedback newFeedback st in
      let aiMsg :=
        List.find (fun m => jsstring_eqb (id m) messageId) (messages st) in
      let st := postToParent (EvFeedback messageId type) st in
      let '(sessionId, st) := getSessionId (freshSessionId env) st in
      let st :=
        fetch (FeedbackRequest (webhookUrl config) sessionId messageId
                 (orNull (aiMsg ≫= replyTo)) type) st in
      Awaiting st type
  end.

Definition supportMessage (s : Stamp) : ChatMessage :=
  systemMessage s
    (lit "I'm sorry this wasn't helpful. Please reach out to our support team at **support@axmed.com** for further assistance.")
    None.

(** [handleFeedback] behind the [await]: the outcome of the fetch is
    dropped by the empty [catch]. *)
Definition handleFeedback_resume (type : Vote) (outcome : FetchOutcome)
    (s : Stamp) (st : AppState) : AppState :=
  match type with
  | Down => append (supportMessage s) st
  | Up => st
  end.

End Widget.

(** ** Notions the statements below use *)

Definition stateOf {P} (r : Step P) : AppState :=
  match r with
  | Returned st => st
  | Awaiting st _ => st
  end.

(** The failures of a send: a status outside 2xx, a network error, a
    body [JSON.parse] rejects, and the abort by the 30 second timer. *)
Inductive SendFailure : FetchOutcome -> Prop :=
| FailStatus status body : ok status = false -> SendFailure (Response status body)
| FailNetwork : SendFailure NetworkError
| FailParse status : ok status = true -> SendFailure (Response status None)
| FailTimeout : SendFailure Aborted.

(** The reply text as the design document words it: "read from the
    first present field among output, text, message", with the fixed
    text when none is present. *)
Definition firstPresentField (data : JsValue) : JsValue :=
  match getProp data (lit "output") with
  | Some v => v
  | None =>
      match getProp data (lit "text") with
      | Some v => v
      | None =>
          match getProp data (lit "message") with
          | Some v => v
          | None => JString (lit "Sorry, I could not process that request.")
          end
      end
  end.

(** A field that [||] passes over: absent, or present with a falsy value. *)
Definition falsyOrAbsent (data : JsValue) (name : jsstring) : Prop :=
  forall v, getProp data name = Some v -> truthy v = false.

(** The integer a run of decimal digits denotes, on top of [acc]. *)
Definition decimal (acc : Z) (ds : jsstring) : Z :=
  fold_left (fun a c => 10 * a + (Z.of_N c - 48)) ds acc.

Definition startsWithDigit (s : jsstring) : bool :=
  match s with c :: _ => isDigit c | [] => false end.

(** What [parseInt] looks at behind the leading white space and one
    optional sign. *)
Definition afterSign (s : jsstring) : jsstring :=
  match trimStart s with
  | c :: t => if ((c =? 45) || (c =? 43))%N then t else c :: t
  | [] => []
  end.

(** The Number a [spec_float] of the standard library stands for, when
    its value is an integer. *)
Definition ofSpecFloat (x : spec_float) : ParsedInt :=
  match x with
  | S754_nan => PNaN
  | S754_infinity s => PInfinity s
  | S754_zero s => if s then PNegZero else PInt 0
  | S754_finite s m e =>
      let v := if 0 <=? e then Z.pos m * 2 ^ e else Z.pos m / 2 ^ (- e) in
      PInt (if s then - v else v)
  end.

Definition ParsedInt_eqb (a b : ParsedInt) : bool :=
  match a, b with
  | PNaN, PNaN => true
  | PInfinity s, PInfinity t => Bool.eqb s t
  | PNegZero, PNegZero => true
  | PInt x, PInt y => x =? y
  | _, _ => false
  end.

(** Integers of 53 + [e] bits around the points where rounding turns:
    for four leading 53-bit patterns, the low [e] bits at zero, just
    below, at and just above the half, and at all ones. *)
Definition roundingSamples (exponents : list Z) : list Z :=
  flat_map
    (fun e =>
       flat_map
         (fun m =>
            map (fun d => m * 2 ^ e + d)
              [0; 2 ^ (e - 1) - 1; 2 ^ (e - 1); 2 ^ (e - 1) + 1; 2 ^ e - 1])
         [2 ^ 52; 2 ^ 52 + 1; 2 ^ 53 - 2; 2 ^ 53 - 1])
    exponents.

(** What reading [messages.length] throws, as in
    [const hasMessages = messages.length > 0] at the head of the
    component: a TypeError on null, nothing on any other parsed value. *)
Definition lengthThrows (messages : JsValue) : option Exn :=
  match messages with
  | JNull => Some TypeError
  | _ => None
  end.

(** *** Sample data *)

Definition initialState : AppState :=
  {| messages := []; feedback := ∅; inputValue := []; isLoading := false;
     lastSendRef := 0; lastFeedbackRef := 0;
     isTypingRef := false; typingTimeoutRef := false;
     storedSessionId := None; storedFeedback := None;
     requests := []; posted := [] |}.

Definition sampleEnv (t : Z) (name : string) : Env :=
  {| now := t;
     stamp := {| stampId := lit name; stampTime := lit "2026-01-01T00:00:00.000Z" |};
     freshSessionId := lit "session_1_abc" |}.

Definition sampleStamp (name : string) : Stamp :=
  {| stampId := lit name; stampTime := lit "2026-01-01T00:00:01.000Z" |}.

(** A page opened with [?webhookUrl=https://hook.example/chat]. *)
Definition sampleConfig : Config :=
  getConfig [(lit "webhookUrl", lit "https://hook.example/chat")] None.

(** A page opened without parameters, built without VITE_WEBHOOK_URL. *)
Definition bareConfig : Config := getConfig [] None.

Definition sampleUser : ChatMessage :=
  {| id := lit "u1"; content := JString (lit "Hello"); sender := User;
     timestamp := lit "2026-01-01T00:00:00.000Z";
     replyTo := None; isSystem := None; failedInput := None |}.

Definition sampleError : ChatMessage :=
  {| id := lit "e1"; content := JString (lit "The request timed out.");
     sender := Ai; timestamp := lit "2026-01-01T00:00:30.000Z";
     replyTo := None; isSystem := Some true;
     failedInput := Some (lit "Hello") |}.

(** The state in which a send of "Hello", accepted at time 100000, has
    just failed. *)
Definition failedState : AppState :=
  {| messages := [sampleUser; sampleError]; feedback := ∅;
     inputValue := []; isLoading := false;
     lastSendRef := 100000; lastFeedbackRef := 0;
     isTypingRef := false; typingTimeoutRef := false;
     storedSessionId := Some (lit "session_1_abc"); storedFeedback := None;
     requests := [SendRequest (lit "https://hook.example/chat")
                    (lit "session_1_abc") (lit "u1") (lit "Hello")];
     posted := [] |}.

(** ** The rest of the component *)

(** *** Colour utilities *)

(** The value of a hexadecimal digit. *)
Definition hexDigit (c : N) : option Z :=
  if ((48 <=? c) && (c <=? 57))%N then Some (Z.of_N c - 48)
  else if ((97 <=? c) && (c <=? 102))%N then Some (Z.of_N c - 87)
  else if ((65 <=? c) && (c <=? 70))%N then Some (Z.of_N c - 55)
  else None.

Fixpoint readHex (started : bool) (acc : Z) (s : jsstring) : option Z :=
  match s with
  | c :: s' =>
      match hexDigit c with
      | Some d => readHex true (16 * acc + d) s'
      | None => if started then Some acc else None
      end
  | [] => if started then Some acc else None
  end.

(** [parseInt(s, 16)]: leading white space, one optional sign, an
    optional [0x] or [0X], then the hexadecimal digits at the head. *)
Definition parseInt16 (s : jsstring) : ParsedInt :=
  let t := trimStart s in
  let '(negative, t) :=
    match t with
    | c :: t' =>
        if (c =? 45)%N then (true, t')
        else if (c =? 43)%N then (false, t')
        else (false, t)
    | [] => (false, t)
    end in
  let digits :=
    match t with
    | c0 :: cx :: t' =>
        if ((c0 =? 48) && ((cx =? 120) || (cx =? 88)))%N then t' else t
    | _ => t
    end in
  match readHex false 0 digits with
  | Some n => numberOf negative n
  | None => PNaN
  end.

(** [s.replace(c, '')] for a one-character string pattern: the first
    occurrence goes. *)
Fixpoint removeFirst (c : N) (s : jsstring) : jsstring :=
  match s with
  | [] => []
  | ch :: s' => if (ch =? c)%N then s' else ch :: removeFirst c s'
  end.

(** [s.substring(a, b)] for constants [a <= b]. *)
Definition substring (a b : nat) (s : jsstring) : jsstring :=
  take (b - a) (drop a s).

Definition hexToRgb (hex : jsstring) : ParsedInt * ParsedInt * ParsedInt :=
  let h := removeFirst 35 hex in
  (parseInt16 (substring 0 2 h),
   parseInt16 (substring 2 4 h),
   parseInt16 (substring 4 6 h)).

(** *** The page: the component and the transcript entry of localStorage *)

Record Page := {
  app : AppState;
  storedMessages : option (list ChatMessage)
}.

Definition onApp (f : AppState -> AppState) (pg : Page) : Page :=
  {| app := f (app pg); storedMessages := storedMessages pg |}.

Definition saveMessages (msgs : list ChatMessage) (pg : Page) : Page :=
  {| app := app pg; storedMessages := Some msgs |}.

(** The effect that persists the transcript when it has changed. *)
Definition persistMessages (pg : Page) : Page :=
  saveMessages (messages (app pg)) pg.

(** [localStorage.removeItem] of the feedback key. *)
Definition removeStoredFeedback (st : AppState) : AppState :=
  {| messages := messages st; feedback := feedback st;
     inputValue := inputValue st; isLoading := isLoading st;
     lastSendRef := lastSendRef st; lastFeedbackRef := lastFeedbackRef st;
     isTypingRef := isTypingRef st; typingTimeoutRef := typingTimeoutRef st;
     storedSessionId := storedSessionId st;
     storedFeedback := None;
     requests := requests st; posted := posted st |}.

(** [newSessionId] is the id the handler builds from the clock and the
    random source. *)
Definition handleNewConversation (newSessionId : jsstring) (pg : Page) : Page :=
  let st := setMessages (fun _ => []) (app pg) in
  let st := removeStoredFeedback st in
  let st := setFeedback ∅ st in
  let st := setStoredSessionId newSessionId st in
  {| app := st; storedMessages := None |}.

Section WidgetHandlers.

Variable config : Config.
Variable isEmbedded : bool.

(** [notifyTyping]: the typing notice goes out once, and the timer of
    one second is started again. *)
Definition notifyTyping (st : AppState) : AppState :=
  let st :=
    if negb (isTypingRef st) then
      postToParent config isEmbedded (EvTyping true)
        (setTyping true (typingTimeoutRef st) st)
    else st in
  setTyping (isTypingRef st) true st.

(** The callback of the typing timer; it runs only while the timer is
    pending. *)
Definition typingTimerFires (st : AppState) : AppState :=
  if typingTimeoutRef st then
    postToParent config isEmbedded (EvTyping false) (setTyping false false st)
  else st.

(** The [onChange] of the textarea. *)
Definition handleChange (value : jsstring) (st : AppState) : AppState :=
  notifyTyping (setInputValue value st).

Definition handleSend (st : AppState) (env : Env) : Step PendingSend :=
  if isNonEmpty (trim (inputValue st)) && negb (isLoading st) then
    sendMessage_begin config isEmbedded st env (inputValue st)
  else Returned st.

(** The click on a thumb: [feedback[id] !== type && handleFeedback(id, type)]. *)
Definition clickFeedback (st : AppState) (env : Env)
    (messageId : jsstring) (type : Vote) : Step Vote :=
  match feedback st !! messageId, type with
  | Some Up, Up | Some Down, Down => Returned st
  | _, _ => handleFeedback_begin config isEmbedded st env messageId type
  end.

(** The listener for messages of the embedding page: whether the input
    is focused.  [action] is [event.data?.action] when it is a string. *)
Definition handleMessage (origin : jsstring) (action : option jsstring)
    : bool :=
  if negb (existsb (jsstring_eqb origin) (allowedOrigins config)) then false
  else
    match action with
    | Some a => jsstring_eqb a (lit "open")
    | None => false
    end.

(** What can happen to the component, one event at a time. *)
Inductive Action : Type :=
| Change (value : jsstring)
| TypingTimer
| Send (env : Env) (text : jsstring)
| ClickSend (env : Env)
| SendSettles (p : PendingSend) (outcome : FetchOutcome) (s : Stamp)
| Retry (env : Env) (errorMsgId originalInput : jsstring)
| ClickFeedback (env : Env) (messageId : jsstring) (type : Vote)
| FeedbackSettles (type : Vote) (outcome : FetchOutcome) (s : Stamp)
| NewConversation (newSessionId : jsstring)
| MessagesEffect
| ClickClose.

Definition act (a : Action) (pg : Page) : Page :=
  match a with
  | Change value => onApp (handleChange value) pg
  | TypingTimer => onApp typingTimerFires pg
  | Send env text =>
      onApp (fun st => stateOf (sendMessage_begin config isEmbedded st env text)) pg
  | ClickSend env => onApp (fun st => stateOf (handleSend st env)) pg
  | SendSettles p outcome s =>
      onApp (sendMessage_resume config isEmbedded p outcome s) pg
  | Retry env errorMsgId originalInput =>
      onApp (fun st =>
               stateOf (handleRetry config isEmbedded st env errorMsgId
                          originalInput)) pg
  | ClickFeedback env messageId type =>
      onApp (fun st => stateOf (clickFeedback st env messageId type)) pg
  | FeedbackSettles type outcome s =>
      onApp (handleFeedback_resume type outcome s) pg
  | NewConversation newSessionId => handleNewConversation newSessionId pg
  | MessagesEffect => persistMessages pg
  | ClickClose => onApp (postToParent config isEmbedded EvClose) pg
  end.

Definition runActions (actions : list Action) (pg : Page) : Page :=
  foldl (fun pg a => act a pg) pg actions.

End WidgetHandlers.

(** The typing notices posted to one origin, oldest first. *)
Definition typingNotice (origin : jsstring) (post : jsstring * ParentEvent)
    : option bool :=
  match post with
  | (o, EvTyping b) => if jsstring_eqb o origin then Some b else None
  | _ => None
  end.

Definition typingTo (origin : jsstring) (st : AppState) : list bool :=
  omap (typingNotice origin) (posted st).

(** [l] reads [expect], then its negation, and so on in turns. *)
Fixpoint alternates (expect : bool) (l : list bool) : bool :=
  match l with
  | [] => true
  | b :: l' => Bool.eqb b expect && alternates (negb expect) l'
  end.

Definition initialPage : Page :=
  {| app := initialState; storedMessages := None |}.

(** *** Notions for the statements about the rest *)

Definition allWhiteSpace (s : jsstring) : Prop :=
  Forall (fun c => isWhiteSpace c = true) s.

(** A text [trim] leaves as it is: empty, or with a code unit that is
    not white space at either end. *)
Definition trimmed (s : jsstring) : Prop :=
  match s with
  | [] => True
  | c :: _ => isWhiteSpace c = false /\ (isWhiteSpace <$> last s) = Some false
  end.

(** [pieces.join(',')] *)
Fixpoint joinComma (pieces : list jsstring) : jsstring :=
  match pieces with
  | [] => []
  | [p] => p
  | p :: rest => p ++ 44%N :: joinComma rest
  end.

(** Whether posts of the component reach [origin]. *)
Definition reaches (config : Config) (isEmbedded : bool) (origin : jsstring)
    : bool :=
  isEmbedded && bool_decide (origin ∈ allowedOrigins config).

(** Two states with the same typing flag, the same pending timer and the
    same typing notices to [origin]. *)
Definition sameTyping (origin : jsstring) (st st' : AppState) : Prop :=
  isTypingRef st' = isTypingRef st /\
  typingTimeoutRef st' = typingTimeoutRef st /\
  typingTo origin st' = typingTo origin st.

(** What the typing machine keeps: the notices to [origin] take turns,
    the flag tells whether the last one said true, and a timer is
    pending only while the flag is up. *)
Definition typingInv (config : Config) (isEmbedded : bool)
    (origin : jsstring) (st : AppState) : Prop :=
  alternates true (typingTo origin st) = true /\
  (typingTimeoutRef st = true -> isTypingRef st = true) /\
  (if reaches config isEmbedded origin
   then isTypingRef st = Nat.odd (length (typingTo origin st))
   else typingTo origin st = []).

(** ** Auxiliary notions for the proofs about the pattern *)

(** The code unit the matcher has just passed after reading [w]. *)
Fixpoint prevAfter (w : jsstring) (p : option N) (s : jsstring) : option N :=
  match w, s with
  | _ :: w', ch :: s' => prevAfter w' (Some ch) s'
  | _, _ => p
  end.

(** The code units up to the next [<] are dropped. *)
Fixpoint skipNotLt (s : jsstring) : jsstring :=
  match s with
  | ch :: s' => if (ch =? ltSign)%N then s else skipNotLt s'
  | [] => []
  end.

(** A continuation that can only go on at a [<]. *)
Definition needsLt (k : Cont) : Prop :=
  forall p s, head s <> Some ltSign -> k p s = None.

(** What follows the second star of the pattern. *)
Definition kfin : Cont :=
  fun p s => run (word closeTag) p s (fun _ s' => Some s').

(** * Properties *)

(** ** The sanitizer pattern against its reading as fragments *)

Section ScriptPattern.

Lemma run_word (w : jsstring) : forall p s k,
  run (word w) p s k =
  match stripPrefixCI w s with
  | Some s' => k (prevAfter w p s) s'
  | None => None
  end.
Proof.
  induction w as [|c w IH]; intros p s k; simpl; [reflexivity|].
  destruct s as [|ch s']; [reflexivity|].
  unfold sameLetter. destruct (canonicalize ch =? canonicalize c)%N; [|reflexivity].
  apply IH.
Qed.

Lemma matchHere_word (w : jsstring) p s :
  run (word w) p s (fun _ s' => Some s') = stripPrefixCI w s.
Proof. rewrite run_word. destruct (stripPrefixCI w s); reflexivity. Qed.

Lemma canonicalize_lt (ch : N) :
  (canonicalize ch =? canonicalize ltSign)%N = (ch =? ltSign)%N.
Proof.
  unfold canonicalize, ltSign. simpl.
  destruct (97 <=? ch)%N eqn:H1; destruct (ch <=? 122)%N eqn:H2; simpl;
    try reflexivity.
  apply N.leb_le in H1. apply N.leb_le in H2.
  transitivity false; [apply N.eqb_neq | symmetry; apply N.eqb_neq]; lia.
Qed.

Lemma repeatMatcher_S (m : Matcher) fuel p s k :
  repeatMatcher m (S fuel) p s k =
  match m p s (fun prev' s' =>
                 if (length s' =? length s)%nat then None
                 else repeatMatcher m fuel prev' s' k) with
  | Some r => Some r
  | None => k p s
  end.
Proof. reflexivity. Qed.

Lemma run_NotLit_lt p s k :
  run (NotLit ltSign) p s k =
  match s with
  | ch :: s' => if (ch =? ltSign)%N then None else k (Some ch) s'
  | [] => None
  end.
Proof.
  destruct s as [|ch s']; [reflexivity|].
  cbn [run]. rewrite canonicalize_lt. reflexivity.
Qed.

Lemma sameLetter_t_word (ch : N) :
  sameLetter ch 116 = true -> isWordChar ch = true.
Proof.
  unfold sameLetter, canonicalize, isWordChar. simpl.
  destruct (97 <=? ch)%N eqn:H1; destruct (ch <=? 122)%N eqn:H2; simpl;
    intros H; apply N.eqb_eq in H; try reflexivity.
  - rewrite orb_true_r. reflexivity.
  - subst ch. reflexivity.
  - subst ch. reflexivity.
  - subst ch. reflexivity.
Qed.

Lemma stripPrefixCI_drop (w : jsstring) : forall s r,
  stripPrefixCI w s = Some r ->
  r = drop (length w) s /\ (length w <= length s)%nat.
Proof.
  induction w as [|c w IH]; intros s r; simpl.
  - intros [= <-]. split; [reflexivity | lia].
  - destruct s as [|ch s']; [discriminate|].
    destruct (sameLetter ch c); [|discriminate].
    intros H. destruct (IH _ _ H) as [-> Hl]. split; [reflexivity | simpl; lia].
Qed.

Lemma openTag_prev_word p s body :
  stripPrefixCI openTag s = Some body ->
  isWordAt (prevAfter openTag p s) = true.
Proof.
  unfold openTag.
  destruct s as [|c1 [|c2 [|c3 [|c4 [|c5 [|c6 [|c7 s]]]]]]]; simpl;
    try discriminate;
    repeat match goal with
           | |- context [if ?b then _ else _] => destruct b eqn:?; try discriminate
           end.
  intros _. apply sameLetter_t_word. assumption.
Qed.

Lemma skipNotLt_length s : (length (skipNotLt s) <= length s)%nat.
Proof.
  induction s as [|ch s IH]; simpl; [lia|].
  destruct (ch =? ltSign)%N; simpl; lia.
Qed.

Lemma skipNotLt_head s : skipNotLt s = [] \/ head (skipNotLt s) = Some ltSign.
Proof.
  induction s as [|ch s IH]; simpl; [left; reflexivity|].
  destruct (ch =? ltSign)%N eqn:E; [|exact IH].
  right. simpl. apply N.eqb_eq in E. congruence.
Qed.

(** The greedy [[^<]] star in front of a continuation that can only
    go on at a [<]: backtracking into the run never helps, so the
    continuation is entered once, behind the whole run. *)
Lemma star_notLt (k : Cont) : needsLt k ->
  forall fuel s p, (length s < fuel)%nat ->
  exists p', repeatMatcher (run (NotLit ltSign)) fuel p s k = k p' (skipNotLt s).
Proof.
  intros Hk. induction fuel as [|fuel IH]; intros s p Hlen; [lia|].
  rewrite repeatMatcher_S, run_NotLit_lt.
  destruct s as [|ch s'].
  - exists p. reflexivity.
  - cbn [skipNotLt]. destruct (ch =? ltSign)%N eqn:E.
    + exists p. reflexivity.
    + assert (Hne : (length s' =? length (ch :: s'))%nat = false)
        by (apply Nat.eqb_neq; simpl; lia).
      rewrite Hne.
      destruct (IH s' (Some ch)) as [p' Hp']; [simpl in Hlen; lia|].
      rewrite Hp'. exists p'.
      destruct (k p' (skipNotLt s')) eqn:Ek; [reflexivity|].
      apply Hk. simpl. intros [= ->]. discriminate.
Qed.

Lemma stripPrefixCI_close_head s r :
  stripPrefixCI closeTag s = Some r -> head s = Some ltSign.
Proof.
  unfold closeTag. destruct s as [|ch s']; simpl; [discriminate|].
  unfold sameLetter. change 60%N with ltSign. rewrite canonicalize_lt.
  destruct (ch =? ltSign)%N eqn:E; [|discriminate].
  intros _. apply N.eqb_eq in E. congruence.
Qed.

Lemma stripPrefixCI_close_none s :
  head s <> Some ltSign -> stripPrefixCI closeTag s = None.
Proof.
  intros H. destruct (stripPrefixCI closeTag s) eqn:E; [|reflexivity].
  apply stripPrefixCI_close_head in E. contradiction.
Qed.

Lemma afterClosingTag_skip s :
  afterClosingTag (skipNotLt s) = afterClosingTag s.
Proof.
  induction s as [|ch s IH]; [reflexivity|].
  cbn [skipNotLt]. destruct (ch =? ltSign)%N eqn:E; [reflexivity|].
  rewrite IH. symmetry.
  cbn [afterClosingTag].
  rewrite stripPrefixCI_close_none; [reflexivity|].
  simpl. intros [= ->]. discriminate.
Qed.

Lemma kfin_eq p s : kfin p s = stripPrefixCI closeTag s.
Proof. apply matchHere_word. Qed.

Lemma run_body p s k :
  run scriptGroup p s k =
  match stripPrefixCI closeTag s with
  | Some _ => None
  | None =>
      match s with
      | ch :: s1 =>
          if (ch =? ltSign)%N
          then repeatMatcher (run (NotLit ltSign)) (S (length s1)) (Some ch) s1 k
          else None
      | [] => None
      end
  end.
Proof.
  unfold scriptGroup. cbn [run]. rewrite matchHere_word.
  destruct (stripPrefixCI closeTag s); [reflexivity|].
  destruct s as [|ch s1]; [reflexivity|].
  rewrite canonicalize_lt. reflexivity.
Qed.

Lemma outer_needsLt fuel :
  needsLt (fun p s => repeatMatcher (run scriptGroup) fuel p s kfin).
Proof.
  intros p s Hs. destruct fuel as [|fuel].
  - cbn [repeatMatcher]. rewrite kfin_eq.
    apply stripPrefixCI_close_none. exact Hs.
  - rewrite repeatMatcher_S, run_body, kfin_eq.
    rewrite (stripPrefixCI_close_none s Hs).
    destruct s as [|ch s']; [reflexivity|].
    destruct (ch =? ltSign)%N eqn:E; [|reflexivity].
    apply N.eqb_eq in E. simpl in Hs. congruence.
Qed.

Lemma outer_star : forall fuel s p, (length s < fuel)%nat ->
  head s = Some ltSign ->
  repeatMatcher (run scriptGroup) fuel p s kfin = afterClosingTag s.
Proof.
  induction fuel as [|fuel IH]; intros s p Hlen Hhd; [lia|].
  destruct s as [|ch s1]; [discriminate|].
  simpl in Hhd. injection Hhd as ->.
  rewrite repeatMatcher_S, run_body, kfin_eq.
  cbn [afterClosingTag].
  destruct (stripPrefixCI closeTag (ltSign :: s1)) as [r|] eqn:Ec; [reflexivity|].
  rewrite N.eqb_refl.
  set (k' := fun (prev' : option N) (s' : jsstring) =>
               if (length s' =? length (ltSign :: s1))%nat then None
               else repeatMatcher (run scriptGroup) fuel prev' s' kfin).
  assert (Hk' : needsLt k').
  { intros q t Ht. unfold k'. destruct (length t =? _)%nat; [reflexivity|].
    apply outer_needsLt. exact Ht. }
  destruct (star_notLt k' Hk' (S (length s1)) s1 (Some ltSign)) as [p' Hp']; [lia|].
  rewrite Hp'. unfold k'.
  pose proof (skipNotLt_length s1) as Hsk.
  assert (Hne : (length (skipNotLt s1) =? length (ltSign :: s1))%nat = false)
    by (apply Nat.eqb_neq; simpl; lia).
  rewrite Hne. rewrite <- afterClosingTag_skip.
  destruct (skipNotLt_head s1) as [Hnil | Hlt].
  - rewrite Hnil. destruct fuel; reflexivity.
  - rewrite IH; [|simpl in Hlen; lia|exact Hlt].
    destruct (afterClosingTag (skipNotLt s1)); reflexivity.
Qed.

Lemma run_scriptRe_tail p s k :
  run (Cat (StarG (NotLit ltSign)) (Cat (StarG scriptGroup) (word closeTag))) p s k =
  repeatMatcher (run (NotLit ltSign)) (S (length s)) p s
    (fun p1 s1 =>
       repeatMatcher (run scriptGroup) (S (length s1)) p1 s1
         (fun p2 s2 => run (word closeTag) p2 s2 k)).
Proof. reflexivity. Qed.

(** One match attempt of the pattern is one fragment at the head. *)
Lemma matchHere_scriptRe p s : matchHere scriptRe p s = scriptFragment s.
Proof.
  unfold matchHere, scriptRe, scriptFragment.
  
  change (run (Cat (word openTag) ?r) p s ?k)
    with (run (word openTag) p s (fun p' s' => run r p' s' k)).
  rewrite run_word.
  destruct (stripPrefixCI openTag s) as [s1|] eqn:Eo; [|reflexivity].
  change (run (Cat WordB ?r) ?q s1 ?k)
    with (if xorb (isWordAt q) (isWordAt (head s1)) then run r q s1 k
          else None).
  rewrite (openTag_prev_word p s s1 Eo). cbn [xorb].
  destruct (isWordAt (head s1)); [reflexivity|]. cbn [negb].
  rewrite run_scriptRe_tail.
  set (K := fun (p1 : option N) (s2 : jsstring) =>
              repeatMatcher (run scriptGroup) (S (length s2)) p1 s2 kfin).
  assert (HK : needsLt K).
  { intros q t Ht. unfold K. apply (outer_needsLt (S (length t))). exact Ht. }
  destruct (star_notLt K HK (S (length s1)) s1 (prevAfter openTag p s))
    as [p' Hp']; [lia|].
  unfold K in Hp'. unfold kfin in Hp' at 1. rewrite Hp'.
  rewrite <- afterClosingTag_skip.
  destruct (skipNotLt_head s1) as [Hnil | Hlt].
  - rewrite Hnil. reflexivity.
  - apply (outer_star (S (length (skipNotLt s1)))); [lia | exact Hlt].
Qed.

Lemma afterClosingTag_drop : forall s r,
  afterClosingTag s = Some r ->
  exists m, r = drop m s /\ (m <= length s)%nat.
Proof.
  induction s as [|ch s IH]; intros r; cbn [afterClosingTag].
  - simpl. discriminate.
  - destruct (stripPrefixCI closeTag (ch :: s)) as [r'|] eqn:E.
    + intros [= <-]. apply stripPrefixCI_drop in E as [-> Hl].
      eexists. split; [reflexivity | exact Hl].
    + intros H. destruct (IH _ H) as (m & -> & Hm).
      exists (S m). split; [reflexivity | simpl; lia].
Qed.

Lemma scriptFragment_drop s r :
  scriptFragment s = Some r ->
  exists m, r = drop (S m) s /\ (S m <= length s)%nat.
Proof.
  unfold scriptFragment.
  destruct (stripPrefixCI openTag s) as [b|] eqn:Eo; [|discriminate].
  destruct (isWordAt (head b)); [discriminate|].
  intros H. apply stripPrefixCI_drop in Eo as [-> Hl].
  apply afterClosingTag_drop in H as (m & -> & Hm).
  rewrite drop_drop. rewrite length_drop in Hm.
  change (length openTag) with 7%nat in *.
  exists (6 + m)%nat. split; [reflexivity | lia].
Qed.

Lemma replaceFrom_scriptRe : forall s n p fuel,
  (length s - n <= fuel)%nat ->
  replaceFrom scriptRe n p s = stripFragments fuel (drop n s).
Proof.
  induction s as [|ch s IH]; intros n p fuel Hf.
  - rewrite drop_nil. destruct fuel; reflexivity.
  - destruct n as [|n]; cbn [replaceFrom drop].
    + destruct fuel as [|fuel]; [simpl in Hf; lia|].
      rewrite matchHere_scriptRe. cbn [stripFragments].
      destruct (scriptFragment (ch :: s)) as [r|] eqn:E.
      * apply scriptFragment_drop in E as (m & -> & Hm).
        rewrite length_drop.
        replace (length (ch :: s) - (length (ch :: s) - S m))%nat with (S m)
          by lia.
        cbn [drop]. apply IH. simpl in Hf. lia.
      * f_equal. rewrite (IH 0%nat (Some ch) fuel); [reflexivity|].
        simpl in Hf. lia.
    + apply IH. simpl in Hf. lia.
Qed.

(** The [replace] of [validateInput] removes the script fragments. *)
Lemma replace_scriptRe (s : jsstring) :
  replaceAllEmpty scriptRe s = stripScriptFragments s.
Proof.
  unfold replaceAllEmpty, stripScriptFragments.
  rewrite (replaceFrom_scriptRe s 0%nat None (length s)); [reflexivity | lia].
Qed.

(** Any fuel that covers the text gives the same result. *)
Lemma stripFragments_fuel (fuel : nat) (s : jsstring) :
  (length s <= fuel)%nat -> stripFragments fuel s = stripScriptFragments s.
Proof.
  intros H. unfold stripScriptFragments.
  pose proof (replaceFrom_scriptRe s 0%nat None fuel) as E1.
  pose proof (replaceFrom_scriptRe s 0%nat None (length s)) as E2.
  rewrite drop_0 in E1, E2. rewrite <- E1, <- E2 by lia. reflexivity.
Qed.

(** A text without [<] holds no fragment. *)
Lemma scriptFragment_needs_lt (s : jsstring) :
  head s <> Some ltSign -> scriptFragment s = None.
Proof.
  intros H. unfold scriptFragment, openTag.
  destruct s as [|ch s]; [reflexivity|]. simpl.
  unfold sameLetter. change 60%N with ltSign. rewrite canonicalize_lt.
  destruct (ch =? ltSign)%N eqn:E; [|reflexivity].
  apply N.eqb_eq in E. simpl in H. congruence.
Qed.

Lemma stripScriptFragments_plain (s : jsstring) :
  Forall (fun c => c <> ltSign) s -> stripScriptFragments s = s.
Proof.
  intros H. unfold stripScriptFragments.
  induction H as [|c s Hc _ IH]; [reflexivity|].
  cbn [length stripFragments].
  rewrite scriptFragment_needs_lt by (simpl; congruence).
  rewrite IH. reflexivity.
Qed.

End ScriptPattern.

(** ** validateInput *)

Example validate_hello_script :
  validateInput (lit "  hello <script>alert(1)</script> world ")
  = {| valid := true; error := None; sanitized := lit "hello  world" |}.
Proof. vm_compute. reflexivity. Qed.

Example validate_attr_mixed_case :
  sanitized (validateInput (lit "a<SCRIPT src=x>1<b>2</ScRiPt>b<script>"))
  = lit "ab<script>".
Proof. vm_compute. reflexivity. Qed.

Example validate_tag_name_goes_on :
  sanitized (validateInput (lit "<scripts>1</script>"))
  = lit "<scripts>1</script>".
Proof. vm_compute. reflexivity. Qed.

(** C1. For every input whose trimmed length lies between 1 and 500,
    [validateInput] answers valid with the trimmed text from which every
    script fragment has been removed, letters compared without case: a
    fragment opens with [<script] where the tag name ends and runs
    through the nearest [</script>].  For every input whose trimmed
    length is 0 it answers invalid with 'Message cannot be empty', and
    for every input whose trimmed length exceeds 500 it answers invalid
    with 'Message too long (max 500 characters)'. *)
Theorem validateInput_spec (input : jsstring) :
  ((1 <= length (trim input) <= 500)%nat ->
   validateInput input =
   {| valid := true; error := None;
      sanitized := stripScriptFragments (trim input) |}) /\
  (length (trim input) = 0%nat ->
   validateInput input =
   {| valid := false; error := Some (lit "Message cannot be empty");
      sanitized := trim input |}) /\
  ((500 < length (trim input))%nat ->
   validateInput input =
   {| valid := false;
      error := Some (lit "Message too long (max 500 characters)");
      sanitized := trim input |}).
Proof.
  unfold validateInput, MIN_MESSAGE_LENGTH, MAX_MESSAGE_LENGTH.
  repeat split; intros H.
  - destruct (Nat.ltb_spec (length (trim input)) 1); [lia|].
    destruct (Nat.ltb_spec 500 (length (trim input))); [lia|].
    rewrite replace_scriptRe. reflexivity.
  - destruct (Nat.ltb_spec (length (trim input)) 1); [reflexivity | lia].
  - destruct (Nat.ltb_spec (length (trim input)) 1); [lia|].
    destruct (Nat.ltb_spec 500 (length (trim input))); [reflexivity | lia].
Qed.

Lemma validateInput_spec_witness :
  validateInput (lit " Hi <script>x</script>there ")
  = {| valid := true; error := None; sanitized := lit "Hi there" |}
  /\ validateInput (lit "   ")
     = {| valid := false; error := Some (lit "Message cannot be empty");
          sanitized := [] |}
  /\ valid (validateInput (List.repeat 97%N 501)) = false.
Proof.
  split; [|split].
  - apply (proj1 (validateInput_spec (lit " Hi <script>x</script>there "))).
    vm_compute. split; apply Nat.leb_le; reflexivity.
  - apply (proj1 (proj2 (validateInput_spec (lit "   ")))).
    reflexivity.
  - rewrite (proj2 (proj2 (validateInput_spec (List.repeat 97%N 501)))).
    + reflexivity.
    + apply Nat.ltb_lt. vm_compute. reflexivity.
Defined.

(** ** The retry update of the transcript *)

Lemma findIndex_ge_m1 {A} (p : A -> bool) (l : list A) : -1 <= findIndex p l.
Proof.
  induction l as [|x l IH]; simpl; [lia|].
  destruct (p x); [lia|]. destruct (findIndex p l <? 0); lia.
Qed.

Lemma findIndex_none {A} (p : A -> bool) (l : list A) :
  Forall (fun x => p x = false) l -> findIndex p l = -1.
Proof.
  induction 1 as [|x l Hx _ IH]; simpl; [reflexivity|].
  rewrite Hx, IH. reflexivity.
Qed.

Lemma findIndex_first {A} (p : A -> bool) (pre : list A) (x : A) (post : list A) :
  Forall (fun y => p y = false) pre -> p x = true ->
  findIndex p (pre ++ x :: post) = Z.of_nat (length pre).
Proof.
  intros Hpre Hx. induction Hpre as [|y pre Hy _ IH]; simpl.
  - rewrite Hx. reflexivity.
  - rewrite Hy. simpl in IH. rewrite IH.
    destruct (Z.ltb_spec (Z.of_nat (length pre)) 0); lia.
Qed.

Lemma jsstring_eqb_eq (a b : jsstring) : jsstring_eqb a b = true <-> a = b.
Proof. unfold jsstring_eqb. apply bool_decide_eq_true. Qed.

Lemma jsstring_eqb_neq (a b : jsstring) : jsstring_eqb a b = false <-> a <> b.
Proof. unfold jsstring_eqb. apply bool_decide_eq_false. Qed.

Lemma removeRetryPair_found errorMsgId pre u e post :
  Forall (fun m => id m <> errorMsgId) (pre ++ [u]) -> id e = errorMsgId ->
  removeRetryPair errorMsgId (pre ++ u :: e :: post) = pre ++ post.
Proof.
  intros Hpre He. unfold removeRetryPair.
  replace (pre ++ u :: e :: post) with ((pre ++ [u]) ++ e :: post)
    by (rewrite <- app_assoc; reflexivity).
  rewrite findIndex_first.
  - rewrite length_app. simpl length.
    destruct (Z.ltb_spec (Z.of_nat (length pre + 1)) 1); [lia|].
    replace (Z.to_nat (Z.of_nat (length pre + 1) - 1)) with (length pre) by lia.
    replace (Z.to_nat (Z.of_nat (length pre + 1) + 1))
      with (length (pre ++ [u]) + 1)%nat by (rewrite length_app; simpl; lia).
    rewrite drop_app_add. rewrite <- app_assoc. rewrite take_app_length.
    reflexivity.
  - eapply Forall_impl; [exact Hpre|]. intros m Hm. apply jsstring_eqb_neq, Hm.
  - apply jsstring_eqb_eq, He.
Qed.

(** C2. The transcript update of [handleRetry]: when the error notice is
    located by its id behind at least one element, the element just
    before it and the notice itself are removed and everything else
    stays in place; when the id belongs to the first element, or to no
    element, the transcript comes back unchanged; on [[U; ERR]] with the
    id of [ERR] the result is the empty transcript. *)
Theorem removeRetryPair_spec (errorMsgId : jsstring) (prev : list ChatMessage) :
  (forall pre u e post,
     prev = pre ++ u :: e :: post ->
     Forall (fun m => id m <> errorMsgId) (pre ++ [u]) ->
     id e = errorMsgId ->
     removeRetryPair errorMsgId prev = pre ++ post) /\
  (forall e post,
     prev = e :: post -> id e = errorMsgId ->
     removeRetryPair errorMsgId prev = prev) /\
  (Forall (fun m => id m <> errorMsgId) prev ->
   removeRetryPair errorMsgId prev = prev) /\
  (forall u e,
     prev = [u; e] -> id u <> errorMsgId -> id e = errorMsgId ->
     removeRetryPair errorMsgId prev = []).
Proof.
  repeat split.
  - intros pre u e post -> Hpre He. apply removeRetryPair_found; assumption.
  - intros e post -> He. unfold removeRetryPair. simpl.
    apply jsstring_eqb_eq in He. rewrite He. reflexivity.
  - intros Hall. unfold removeRetryPair. rewrite findIndex_none; [reflexivity|].
    eapply Forall_impl; [exact Hall|]. intros m Hm. apply jsstring_eqb_neq, Hm.
  - intros u e -> Hu He.
    apply (removeRetryPair_found errorMsgId [] u e []); [|exact He].
    constructor; [exact Hu | constructor].
Qed.

Lemma removeRetryPair_spec_witness :
  removeRetryPair (lit "e1") [sampleUser; sampleError] = []
  /\ removeRetryPair (lit "u1") [sampleUser; sampleError]
     = [sampleUser; sampleError]
  /\ removeRetryPair (lit "zz") [sampleUser; sampleError]
     = [sampleUser; sampleError]
  /\ removeRetryPair (lit "e1") [sampleError; sampleUser; sampleError; sampleUser]
     = [sampleError; sampleUser; sampleError; sampleUser]
  /\ removeRetryPair (lit "e1") [sampleUser; sampleUser; sampleError; sampleUser]
     = [sampleUser; sampleUser].
Proof.
  split; [|split; [|split; [|split]]].
  - apply (proj2 (proj2 (proj2
             (removeRetryPair_spec (lit "e1") [sampleUser; sampleError])))
             sampleUser sampleError); [reflexivity | discriminate | reflexivity].
  - apply (proj1 (proj2
             (removeRetryPair_spec (lit "u1") [sampleUser; sampleError]))
             sampleUser [sampleError]); reflexivity.
  - apply (proj1 (proj2 (proj2
             (removeRetryPair_spec (lit "zz") [sampleUser; sampleError])))).
    repeat constructor; discriminate.
  - apply (proj1 (proj2
             (removeRetryPair_spec (lit "e1")
                [sampleError; sampleUser; sampleError; sampleUser]))
             sampleError [sampleUser; sampleError; sampleUser]); reflexivity.
  - apply (proj1 (removeRetryPair_spec (lit "e1")
                    [sampleUser; sampleUser; sampleError; sampleUser])
             [sampleUser] sampleUser sampleError [sampleUser]);
      [reflexivity | repeat constructor; discriminate | reflexivity].
Defined.


(** ** The send handler *)

Section Handlers.

Variable config : Config.
Variable isEmbedded : bool.


(** Posting to the parent touches nothing but the log of posts. *)
Lemma postToParent_frame (data : ParentEvent) (st : AppState) :
  let st' := postToParent config isEmbedded data st in
  messages st' = messages st /\ feedback st' = feedback st /\
  inputValue st' = inputValue st /\ isLoading st' = isLoading st /\
  lastSendRef st' = lastSendRef st /\
  lastFeedbackRef st' = lastFeedbackRef st /\
  isTypingRef st' = isTypingRef st /\
  typingTimeoutRef st' = typingTimeoutRef st /\
  storedSessionId st' = storedSessionId st /\
  storedFeedback st' = storedFeedback st /\
  requests st' = requests st.
Proof.
  unfold postToParent. destruct isEmbedded; [|tauto].
  generalize st. induction (allowedOrigins config) as [|o os IH]; intros st0.
  - simpl. tauto.
  - cbn [foldl]. specialize (IH (postMessage o data st0)). simpl in IH.
    exact IH.
Qed.

Lemma getSessionId_frame (fresh : jsstring) (st : AppState) :
  let st' := snd (getSessionId fresh st) in
  messages st' = messages st /\ feedback st' = feedback st /\
  inputValue st' = inputValue st /\ isLoading st' = isLoading st /\
  lastSendRef st' = lastSendRef st /\
  lastFeedbackRef st' = lastFeedbackRef st /\
  isTypingRef st' = isTypingRef st /\
  typingTimeoutRef st' = typingTimeoutRef st /\
  storedFeedback st' = storedFeedback st /\
  requests st' = requests st /\ posted st' = posted st.
Proof.
  unfold getSessionId. destruct (orNull (storedSessionId st)); simpl; tauto.
Qed.

Lemma rateGate_pass (last t : Z) :
  RATE_LIMIT_MS <= t - last -> rateGate last t = Some t.
Proof.
  intros H. unfold rateGate. destruct (Z.ltb_spec (t - last) RATE_LIMIT_MS);
    [lia | reflexivity].
Qed.

Lemma rateGate_block (last t : Z) :
  t - last < RATE_LIMIT_MS -> rateGate last t = None.
Proof.
  intros H. unfold rateGate. destruct (Z.ltb_spec (t - last) RATE_LIMIT_MS);
    [reflexivity | lia].
Qed.

Lemma rateGate_some (last t t' : Z) :
  rateGate last t = Some t' -> t' = t /\ RATE_LIMIT_MS <= t - last.
Proof.
  unfold rateGate. destruct (Z.ltb_spec (t - last) RATE_LIMIT_MS);
    [discriminate|]. intros [= <-]. split; [reflexivity | assumption].
Qed.

(** What a send that reaches its [fetch] has done and captured. *)
Lemma sendMessage_begin_awaiting st env text st1 p :
  sendMessage_begin config isEmbedded st env text = Awaiting st1 p ->
  isLoading st = false /\
  RATE_LIMIT_MS <= now env - lastSendRef st /\
  webhookUrl config <> [] /\
  valid (validateInput text) = true /\
  validation p = validateInput text /\
  userMessage p =
    {| id := stampId (stamp env);
       content := JString (sanitized (validateInput text));
       sender := User; timestamp := stampTime (stamp env);
       replyTo := None; isSystem := None; failedInput := None |} /\
  messages st1 = messages st ++ [userMessage p] /\
  isLoading st1 = true /\
  lastSendRef st1 = now env /\
  exists sessionId,
    requests st1 =
    requests st ++ [SendRequest (webhookUrl config) sessionId
                      (stampId (stamp env))
                      (sanitized (validateInput text))].
Proof.
  unfold sendMessage_begin.
  destruct (isLoading st) eqn:El; [discriminate|].
  destruct (rateGate (lastSendRef st) (now env)) as [t|] eqn:Eg; [|discriminate].
  apply rateGate_some in Eg as [-> Hg].
  destruct (webhookUrl config) as [|c url] eqn:Eu; [discriminate|]. cbn [isNonEmpty negb].
  destruct (valid (validateInput text)) eqn:Ev; [|discriminate]. cbn [negb].
  match goal with
  | |- (let '(_, _) := getSessionId ?f ?s in _) = _ -> _ =>
      pose proof (getSessionId_frame f s) as Hs;
      destruct (getSessionId f s) as [sid st'] eqn:Esid
  end.
  cbn [snd] in Hs. intros [= <- <-]. cbn [userMessage validation].
  destruct Hs as (Hm & _ & _ & Hl & Hls & _ & _ & _ & _ & Hr & _).
  repeat split; try assumption; try discriminate; try reflexivity.
  - cbn [fetch messages]. rewrite Hm.
    destruct (isTypingRef _);
      [rewrite (proj1 (postToParent_frame _ _))|]; reflexivity.
  - cbn [fetch isLoading]. rewrite Hl.
    destruct (isTypingRef _);
      [rewrite (proj1 (proj2 (proj2 (proj2 (postToParent_frame _ _)))))|];
      reflexivity.
  - cbn [fetch lastSendRef]. rewrite Hls.
    destruct (isTypingRef _);
      [rewrite (proj1 (proj2 (proj2 (proj2 (proj2 (postToParent_frame _ _))))))|];
      reflexivity.
  - exists sid. cbn [fetch requests]. rewrite Hr.
    destruct (isTypingRef _);
      [rewrite (proj2 (proj2 (proj2 (proj2 (proj2 (proj2 (proj2 (proj2 (proj2 (proj2 (postToParent_frame _ _)))))))))))|];
      reflexivity.
Qed.

Lemma sendMessage_begin_blocked st env text :
  isLoading st = true \/ now env - lastSendRef st < RATE_LIMIT_MS ->
  sendMessage_begin config isEmbedded st env text = Returned st.
Proof.
  intros H. unfold sendMessage_begin.
  destruct (isLoading st); [reflexivity|].
  destruct H as [H|H]; [discriminate|].
  rewrite (rateGate_block _ _ H). reflexivity.
Qed.

Lemma readReply_failure outcome :
  SendFailure outcome ->
  readReply outcome =
  inl (match outcome with
       | NetworkError => TypeError
       | Aborted => AbortError
       | Response status body =>
           if ok status then SyntaxError else StatusError status
       end).
Proof.
  intros [status body Hok | | status Hok | ]; simpl; try reflexivity.
  - rewrite Hok. reflexivity.
  - rewrite Hok. reflexivity.
Qed.

(** C3. On any send failure (a status outside 2xx, a network error, a
    body that fails to parse, the abort by the 30 second timer) the
    continuation of the send appends exactly one message to the
    transcript of that time: a system message of sender ai whose
    failedInput is the sanitized input, reading 'The request timed
    out.' for the abort and 'Sorry, something went wrong.' for every
    other failure; nothing but that text depends on the kind of
    failure, and no further request is issued. *)
Theorem send_failure_notice st env text st1 p outcome s st2 :
  sendMessage_begin config isEmbedded st env text = Awaiting st1 p ->
  SendFailure outcome ->
  let notice :=
    {| id := stampId s;
       content :=
         JString (match outcome with
                  | Aborted => lit "The request timed out."
                  | _ => lit "Sorry, something went wrong."
                  end);
       sender := Ai; timestamp := stampTime s; replyTo := None;
       isSystem := Some true;
       failedInput := Some (sanitized (validateInput text)) |} in
  sendMessage_resume config isEmbedded p outcome s st2 = setIsLoading false (append notice st2)
  /\ messages (sendMessage_resume config isEmbedded p outcome s st2) = messages st2 ++ [notice]
  /\ requests (sendMessage_resume config isEmbedded p outcome s st2) = requests st2.
Proof.
  intros Hb Hf notice.
  apply sendMessage_begin_awaiting in Hb as (_ & _ & _ & _ & Hv & _).
  assert (E : sendMessage_resume config isEmbedded p outcome s st2
              = setIsLoading false (append notice st2)).
  { unfold sendMessage_resume. rewrite (readReply_failure _ Hf).
    rewrite Hv. unfold notice, systemMessage.
    destruct Hf as [status body Hok | | status Hok | ]; try reflexivity.
    - rewrite Hok. reflexivity.
    - rewrite Hok. reflexivity. }
  rewrite E. repeat split.
Qed.

(** ** The rate gate *)

Lemma sendMessage_begin_gate st env text :
  isLoading st = false ->
  RATE_LIMIT_MS <= now env - lastSendRef st ->
  lastSendRef (stateOf (sendMessage_begin config isEmbedded st env text))
  = now env.
Proof.
  intros Hl Hg.
  destruct (sendMessage_begin config isEmbedded st env text) as [st1|st1 p] eqn:E.
  - revert E. unfold sendMessage_begin. rewrite Hl, (rateGate_pass _ _ Hg).
    destruct (negb (isNonEmpty (webhookUrl config))); [intros [= <-]; reflexivity|].
    destruct (negb (valid (validateInput text))); [intros [= <-]; reflexivity|].
    destruct (getSessionId _ _). discriminate.
  - apply sendMessage_begin_awaiting in E. simpl. tauto.
Qed.

Lemma sendMessage_begin_other_slot st env text :
  lastFeedbackRef (stateOf (sendMessage_begin config isEmbedded st env text))
  = lastFeedbackRef st.
Proof.
  unfold sendMessage_begin.
  destruct (isLoading st); [reflexivity|].
  destruct (rateGate _ _); [|reflexivity].
  destruct (negb (isNonEmpty (webhookUrl config))); [reflexivity|].
  destruct (negb (valid (validateInput text))); [reflexivity|].
  match goal with
  | |- context [getSessionId ?f ?s] =>
      pose proof (getSessionId_frame f s) as Hs;
      destruct (getSessionId f s) as [sid st'] eqn:Esid
  end.
  cbn [snd] in Hs. cbn [stateOf fetch lastFeedbackRef].
  destruct Hs as (_ & _ & _ & _ & _ & -> & _).
  destruct (isTypingRef _); [|reflexivity].
  rewrite (proj1 (proj2 (proj2 (proj2 (proj2 (proj2 (postToParent_frame _ _))))))).
  reflexivity.
Qed.

(** What a feedback call that passes its gate has done when it reaches
    its [fetch]. *)
Lemma handleFeedback_begin_accepted st env messageId type :
  RATE_LIMIT_MS <= now env - lastFeedbackRef st ->
  exists st1,
    handleFeedback_begin config isEmbedded st env messageId type
    = Awaiting st1 type /\
    lastFeedbackRef st1 = now env /\
    lastSendRef st1 = lastSendRef st /\
    feedback st1 = <[messageId := type]> (feedback st) /\
    storedFeedback st1 = Some (<[messageId := type]> (feedback st)) /\
    messages st1 = messages st /\
    exists sessionId userMessageId,
      requests st1 =
      requests st ++ [FeedbackRequest (webhookUrl config) sessionId messageId
                        userMessageId type].
Proof.
  intros Hg. unfold handleFeedback_begin. rewrite (rateGate_pass _ _ Hg).
  cbn [feedback messages setLastFeedbackRef setFeedback saveFeedback].
  match goal with
  | |- context [getSessionId ?f ?s] =>
      pose proof (getSessionId_frame f s) as Hs;
      destruct (getSessionId f s) as [sid st'] eqn:Esid
  end.
  cbn [snd] in Hs.
  destruct Hs as (Hm & Hf & _ & _ & Hls & Hlf & _ & _ & Hsf & Hr & _).
  match type of Hm with
  | _ = messages (postToParent _ _ ?d ?s) =>
      pose proof (postToParent_frame d s) as Hp
  end.
  cbv zeta in Hp.
  destruct Hp as (Hm' & Hf' & _ & _ & Hls' & Hlf' & _ & _ & _ & Hsf' & Hr').
  eexists. split; [reflexivity|]. cbn [fetch lastFeedbackRef lastSendRef
    feedback storedFeedback messages requests].
  rewrite Hlf, Hlf', Hls, Hls', Hf, Hf', Hsf, Hsf', Hm, Hm', Hr, Hr'.
  repeat split. eexists _, _. reflexivity.
Qed.

Lemma handleFeedback_begin_blocked st env messageId type :
  now env - lastFeedbackRef st < RATE_LIMIT_MS ->
  handleFeedback_begin config isEmbedded st env messageId type = Returned st.
Proof.
  intros H. unfold handleFeedback_begin. rewrite (rateGate_block _ _ H).
  reflexivity.
Qed.

Lemma handleFeedback_begin_other_slot st env messageId type :
  lastSendRef (stateOf (handleFeedback_begin config isEmbedded st env messageId type))
  = lastSendRef st.
Proof.
  destruct (Z.lt_ge_cases (now env - lastFeedbackRef st) RATE_LIMIT_MS) as [H|H].
  - rewrite (handleFeedback_begin_blocked _ _ _ _ H). reflexivity.
  - destruct (handleFeedback_begin_accepted st env messageId type H)
      as (st1 & -> & _ & Hls & _). exact Hls.
Qed.

(** C4. The two cooldown slots.  Starting from an expired slot, an
    attempt at [now1] is let through and stores [now1]; a second attempt
    at [now2] on a state whose slot still holds [now1] is turned away
    when [now2 - now1] is below the cooldown of 2000 ms, and then leaves
    the whole state as it is, and is let through when [now2 - now1]
    reaches the cooldown, storing [now2].  This holds for the gate
    itself, for the send slot as [sendMessage] uses it (with no send in
    flight) and for the feedback slot as [handleFeedback] uses it, and
    neither handler touches the other's slot. *)
Theorem rate_limiter_slots :
  (forall last now1 now2,
     RATE_LIMIT_MS <= now1 - last ->
     rateGate last now1 = Some now1 /\
     (now2 - now1 < RATE_LIMIT_MS -> rateGate now1 now2 = None) /\
     (RATE_LIMIT_MS <= now2 - now1 -> rateGate now1 now2 = Some now2)) /\
  (forall st env1 text1,
     isLoading st = false ->
     RATE_LIMIT_MS <= now env1 - lastSendRef st ->
     lastSendRef (stateOf (sendMessage_begin config isEmbedded st env1 text1))
     = now env1 /\
     forall st' env2 text2,
       isLoading st' = false -> lastSendRef st' = now env1 ->
       (now env2 - now env1 < RATE_LIMIT_MS ->
        sendMessage_begin config isEmbedded st' env2 text2 = Returned st') /\
       (RATE_LIMIT_MS <= now env2 - now env1 ->
        lastSendRef
          (stateOf (sendMessage_begin config isEmbedded st' env2 text2))
        = now env2)) /\
  (forall st env1 id1 v1,
     RATE_LIMIT_MS <= now env1 - lastFeedbackRef st ->
     (exists st1,
        handleFeedback_begin config isEmbedded st env1 id1 v1 = Awaiting st1 v1
        /\ lastFeedbackRef st1 = now env1) /\
     forall st' env2 id2 v2,
       lastFeedbackRef st' = now env1 ->
       (now env2 - now env1 < RATE_LIMIT_MS ->
        handleFeedback_begin config isEmbedded st' env2 id2 v2 = Returned st') /\
       (RATE_LIMIT_MS <= now env2 - now env1 ->
        exists st2,
          handleFeedback_begin config isEmbedded st' env2 id2 v2
          = Awaiting st2 v2
          /\ lastFeedbackRef st2 = now env2)) /\
  (forall st env text,
     lastFeedbackRef (stateOf (sendMessage_begin config isEmbedded st env text))
     = lastFeedbackRef st) /\
  (forall st env messageId v,
     lastSendRef
       (stateOf (handleFeedback_begin config isEmbedded st env messageId v))
     = lastSendRef st).
Proof.
  split; [|split; [|split; [|split]]].
  - intros last now1 now2 Hg. split; [|split].
    + apply rateGate_pass, Hg.
    + apply rateGate_block.
    + apply rateGate_pass.
  - intros st env1 text1 Hl Hg. split.
    + apply sendMessage_begin_gate; assumption.
    + intros st' env2 text2 Hl' Hs'. split; intros H.
      * apply sendMessage_begin_blocked. right. rewrite Hs'. exact H.
      * apply sendMessage_begin_gate; [exact Hl' | rewrite Hs'; exact H].
  - intros st env1 id1 v1 Hg. split.
    + destruct (handleFeedback_begin_accepted st env1 id1 v1 Hg)
        as (st1 & E & Hlf & _).
      exists st1. split; assumption.
    + intros st' env2 id2 v2 Hs'. split; intros H.
      * apply handleFeedback_begin_blocked. rewrite Hs'. exact H.
      * destruct (handleFeedback_begin_accepted st' env2 id2 v2)
          as (st2 & E & Hlf & _); [rewrite Hs'; exact H|].
        exists st2. split; assumption.
  - intros st env text. apply sendMessage_begin_other_slot.
  - intros st env messageId v. apply handleFeedback_begin_other_slot.
Qed.

(** ** Feedback *)

(** C6. Every thumbs down that passes the rate gate records the vote,
    issues one POST to the webhook, and, whatever that POST ends in
    (success or failure), its continuation appends exactly one message
    to the transcript of that time: the system message of sender ai
    with the fixed support text.  A failure of the POST leaves no other
    trace: no further transcript entry, no further request, and the
    recorded vote stays as it is, in the state and in storage. *)
Theorem feedback_down_support st env messageId :
  RATE_LIMIT_MS <= now env - lastFeedbackRef st ->
  exists st1,
    handleFeedback_begin config isEmbedded st env messageId Down
    = Awaiting st1 Down /\
    feedback st1 !! messageId = Some Down /\
    storedFeedback st1 = Some (feedback st1) /\
    (exists sessionId userMessageId,
       requests st1 =
       requests st ++ [FeedbackRequest (webhookUrl config) sessionId messageId
                         userMessageId Down]) /\
    forall outcome s st2,
      let support :=
        {| id := stampId s;
           content :=
             JString (lit "I'm sorry this wasn't helpful. Please reach out to our support team at **support@axmed.com** for further assistance.");
           sender := Ai; timestamp := stampTime s; replyTo := None;
           isSystem := Some true; failedInput := None |} in
      let st3 := handleFeedback_resume Down outcome s st2 in
      st3 = append support st2 /\
      messages st3 = messages st2 ++ [support] /\
      feedback st3 = feedback st2 /\
      storedFeedback st3 = storedFeedback st2 /\
      requests st3 = requests st2.
Proof.
  intros Hg.
  destruct (handleFeedback_begin_accepted st env messageId Down Hg)
    as (st1 & E & _ & _ & Hf & Hsf & _ & Hr).
  exists st1. split; [exact E|]. split; [|split; [|split]].
  - rewrite Hf. apply lookup_insert_eq.
  - rewrite Hsf, Hf. reflexivity.
  - exact Hr.
  - intros outcome s st2. simpl. repeat split.
Qed.

(** ** Sending without a webhook *)

(** C7, as the code has it.  With no webhook URL configured, a send
    that is not turned away by the loading latch or the send cooldown
    appends exactly one system message, 'Chat is not configured. No
    webhook URL found.', whatever the text, issues no request and
    appends no user message; a send that is turned away by the latch or
    the cooldown leaves the state as it is. *)
Theorem send_without_webhook st env text :
  webhookUrl config = [] ->
  (isLoading st = false ->
   RATE_LIMIT_MS <= now env - lastSendRef st ->
   let notice :=
     {| id := stampId (stamp env);
        content :=
          JString (lit "Chat is not configured. No webhook URL found.");
        sender := Ai; timestamp := stampTime (stamp env); replyTo := None;
        isSystem := Some true; failedInput := None |} in
   exists st',
     sendMessage_begin config isEmbedded st env text = Returned st' /\
     messages st' = messages st ++ [notice] /\
     requests st' = requests st /\
     st' = append notice (setLastSendRef (now env) st)) /\
  (isLoading st = true \/ now env - lastSendRef st < RATE_LIMIT_MS ->
   sendMessage_begin config isEmbedded st env text = Returned st).
Proof.
  intros Hu. split.
  - intros Hl Hg notice. eexists. split.
    + unfold sendMessage_begin. rewrite Hl, (rateGate_pass _ _ Hg), Hu.
      reflexivity.
    + repeat split.
  - apply sendMessage_begin_blocked.
Qed.

(** ** Retry *)

(** C10. A retry made while a send is loading, or while the send
    cooldown of 2000 ms is still running, removes the user message and
    the error notice from the transcript and then has its re-send
    turned away: the handler returns with the pair gone, nothing
    appended in its place, no request issued and every other part of
    the state as it was. *)
Theorem retry_drops_failed_exchange st env errorMsgId originalInput pre u e post :
  messages st = pre ++ u :: e :: post ->
  Forall (fun m => id m <> errorMsgId) (pre ++ [u]) ->
  id e = errorMsgId ->
  isLoading st = true \/ now env - lastSendRef st < RATE_LIMIT_MS ->
  exists st',
    handleRetry config isEmbedded st env errorMsgId originalInput
    = Returned st' /\
    messages st' = pre ++ post /\
    requests st' = requests st /\
    st' = setMessages (fun _ => pre ++ post) st.
Proof.
  intros Hm Hpre He Hgate. unfold handleRetry.
  rewrite sendMessage_begin_blocked by exact Hgate.
  eexists. split; [reflexivity|].
  assert (E : removeRetryPair errorMsgId (messages st) = pre ++ post)
    by (rewrite Hm; apply removeRetryPair_found; assumption).
  unfold setMessages. cbn [messages requests]. rewrite E. repeat split.
Qed.

(** ** The reply of a successful send *)

Lemma orElse_truthy (v b : JsValue) : truthy v = true -> orElse (Some v) b = v.
Proof. intros H. simpl. rewrite H. reflexivity. Qed.

Lemma orElse_passes (a : option JsValue) (b : JsValue) :
  (forall v, a = Some v -> truthy v = false) -> orElse a b = b.
Proof.
  intros H. destruct a as [v|]; [|reflexivity].
  simpl. rewrite (H v eq_refl). reflexivity.
Qed.

(** [||] picks the first field that is present and truthy. *)
Lemma replyContent_first_truthy (data : JsValue) :
  (forall v, getProp data (lit "output") = Some v -> truthy v = true ->
     replyContent data = v) /\
  (falsyOrAbsent data (lit "output") ->
   forall v, getProp data (lit "text") = Some v -> truthy v = true ->
     replyContent data = v) /\
  (falsyOrAbsent data (lit "output") -> falsyOrAbsent data (lit "text") ->
   forall v, getProp data (lit "message") = Some v -> truthy v = true ->
     replyContent data = v) /\
  (falsyOrAbsent data (lit "output") -> falsyOrAbsent data (lit "text") ->
   falsyOrAbsent data (lit "message") ->
   replyContent data = JString (lit "Sorry, I could not process that request.")).
Proof.
  unfold replyContent, falsyOrAbsent. repeat split.
  - intros v -> Hv. apply orElse_truthy, Hv.
  - intros Ho v Ht Hv. rewrite (orElse_passes _ _ Ho), Ht.
    apply orElse_truthy, Hv.
  - intros Ho Ht v Hm Hv.
    rewrite (orElse_passes _ _ Ho), (orElse_passes _ _ Ht), Hm.
    apply orElse_truthy, Hv.
  - intros Ho Ht Hm.
    rewrite (orElse_passes _ _ Ho), (orElse_passes _ _ Ht),
      (orElse_passes _ _ Hm).
    reflexivity.
Qed.

(** C5, as the code has it.  On a response with a 2xx status whose body
    parses to a value other than null, the continuation of the send
    appends one ai message whose replyTo is the id of the optimistic
    user message and whose content is the first truthy value among the
    fields output, text, message of the parsed body, in this order (a
    field that is present with a falsy value, such as the empty string,
    is passed over like an absent one), and the fixed text 'Sorry, I
    could not process that request.' when none is truthy.  A body that
    fails to parse, and a body that parses to null, take the failure
    path: the generic error notice is appended instead. *)
Theorem send_success_reply st env text st1 p status s st2 :
  sendMessage_begin config isEmbedded st env text = Awaiting st1 p ->
  ok status = true ->
  (messages st1 = messages st ++ [userMessage p] /\
   id (userMessage p) = stampId (stamp env) /\
   sender (userMessage p) = User) /\
  (forall data, data <> JNull ->
     messages (sendMessage_resume config isEmbedded p
                 (Response status (Some data)) s st2)
     = messages st2 ++
       [{| id := stampId s; content := replyContent data; sender := Ai;
           timestamp := stampTime s;
           replyTo := Some (id (userMessage p));
           isSystem := None; failedInput := None |}] /\
     (forall v, getProp data (lit "output") = Some v -> truthy v = true ->
        replyContent data = v) /\
     (falsyOrAbsent data (lit "output") ->
      forall v, getProp data (lit "text") = Some v -> truthy v = true ->
        replyContent data = v) /\
     (falsyOrAbsent data (lit "output") -> falsyOrAbsent data (lit "text") ->
      forall v, getProp data (lit "message") = Some v -> truthy v = true ->
        replyContent data = v) /\
     (falsyOrAbsent data (lit "output") -> falsyOrAbsent data (lit "text") ->
      falsyOrAbsent data (lit "message") ->
      replyContent data
      = JString (lit "Sorry, I could not process that request."))) /\
  (forall body, body = None \/ body = Some JNull ->
     messages (sendMessage_resume config isEmbedded p
                 (Response status body) s st2)
     = messages st2 ++
       [{| id := stampId s;
           content := JString (lit "Sorry, something went wrong.");
           sender := Ai; timestamp := stampTime s; replyTo := None;
           isSystem := Some true;
           failedInput := Some (sanitized (validateInput text)) |}]).
Proof.
  intros Hb Hok.
  apply sendMessage_begin_awaiting in Hb
    as (_ & _ & _ & _ & Hv & Hu & Hm & _).
  split; [|split].
  - split; [exact Hm|]. rewrite Hu. split; reflexivity.
  - intros data Hd. split; [|apply replyContent_first_truthy].
    unfold sendMessage_resume, readReply. rewrite Hok. cbn [negb].
    assert (E : match data with
                | JNull => (inl TypeError : Exn + JsValue)
                | _ => inr (replyContent data)
                end = inr (replyContent data))
      by (destruct data; [contradiction|reflexivity..]).
    rewrite E. cbn [setIsLoading messages].
    rewrite (proj1 (postToParent_frame _ _)). reflexivity.
  - intros body [-> | ->]; unfold sendMessage_resume, readReply;
      rewrite Hok, Hv; reflexivity.
Qed.

End Handlers.

(** ** Witnesses and counterexamples for the handlers *)

Lemma send_failure_notice_witness :
  messages (sendMessage sampleConfig false initialState (sampleEnv 5000 "u1")
              (lit " Hello ") Aborted (sampleStamp "e1"))
  = [ {| id := lit "u1"; content := JString (lit "Hello"); sender := User;
         timestamp := lit "2026-01-01T00:00:00.000Z";
         replyTo := None; isSystem := None; failedInput := None |};
      {| id := lit "e1"; content := JString (lit "The request timed out.");
         sender := Ai; timestamp := lit "2026-01-01T00:00:01.000Z";
         replyTo := None; isSystem := Some true;
         failedInput := Some (lit "Hello") |} ].
Proof.
  unfold sendMessage.
  destruct (sendMessage_begin sampleConfig false initialState
              (sampleEnv 5000 "u1") (lit " Hello ")) as [st1|st1 p] eqn:E;
    [vm_compute in E; discriminate|].
  destruct (send_failure_notice sampleConfig false initialState
              (sampleEnv 5000 "u1") (lit " Hello ") st1 p Aborted
              (sampleStamp "e1") st1 E FailTimeout) as (_ & Hm & _).
  rewrite Hm. vm_compute in E. injection E as <- <-. reflexivity.
Defined.

Lemma rate_limiter_slots_witness :
  sendMessage_begin sampleConfig false failedState (sampleEnv 101999 "u2")
    (lit "Again") = Returned failedState
  /\ lastSendRef (stateOf (sendMessage_begin sampleConfig false failedState
                             (sampleEnv 102000 "u2") (lit "Again"))) = 102000
  /\ handleFeedback_begin sampleConfig false
       (setLastFeedbackRef 50000 initialState) (sampleEnv 51999 "x")
       (lit "a1") Up
     = Returned (setLastFeedbackRef 50000 initialState)
  /\ (exists st2,
        handleFeedback_begin sampleConfig false
          (setLastFeedbackRef 50000 initialState) (sampleEnv 52000 "x")
          (lit "a1") Up = Awaiting st2 Up
        /\ lastFeedbackRef st2 = 52000).
Proof.
  pose proof (rate_limiter_slots sampleConfig false) as (_ & Hs & Hf & _ & _).
  destruct (Hs (setLastSendRef 0 failedState) (sampleEnv 100000 "u1")
              (lit "Hello") eq_refl) as [_ Hs2]; [vm_compute; discriminate|].
  destruct (Hf initialState (sampleEnv 50000 "x") (lit "a0") Up) as [_ Hf2];
    [vm_compute; discriminate|].
  split; [|split; [|split]].
  - apply (proj1 (Hs2 failedState (sampleEnv 101999 "u2") (lit "Again")
                    eq_refl eq_refl)).
    reflexivity.
  - apply (proj2 (Hs2 failedState (sampleEnv 102000 "u2") (lit "Again")
                    eq_refl eq_refl)).
    vm_compute. discriminate.
  - apply (proj1 (Hf2 (setLastFeedbackRef 50000 initialState)
                    (sampleEnv 51999 "x") (lit "a1") Up eq_refl)).
    reflexivity.
  - apply (proj2 (Hf2 (setLastFeedbackRef 50000 initialState)
                    (sampleEnv 52000 "x") (lit "a1") Up eq_refl)).
    vm_compute. discriminate.
Defined.

Lemma feedback_down_support_witness :
  exists st1,
    handleFeedback_begin sampleConfig false failedState (sampleEnv 200000 "x")
      (lit "e1") Down = Awaiting st1 Down
    /\ feedback st1 !! lit "e1" = Some Down
    /\ messages (handleFeedback_resume Down NetworkError (sampleStamp "s1") st1)
       = messages st1 ++
         [ {| id := lit "s1";
              content :=
                JString (lit "I'm sorry this wasn't helpful. Please reach out to our support team at **support@axmed.com** for further assistance.");
              sender := Ai; timestamp := lit "2026-01-01T00:00:01.000Z";
              replyTo := None; isSystem := Some true; failedInput := None |} ].
Proof.
  destruct (feedback_down_support sampleConfig false failedState
              (sampleEnv 200000 "x") (lit "e1"))
    as (st1 & E & Hf & _ & _ & Hres); [vm_compute; discriminate|].
  exists st1. split; [exact E|]. split; [exact Hf|].
  destruct (Hres NetworkError (sampleStamp "s1") st1) as (_ & Hm & _).
  exact Hm.
Defined.

Lemma send_without_webhook_witness :
  sendMessage_begin bareConfig false initialState (sampleEnv 5000 "n1")
    (lit "Hello")
  = Returned
      (append
         {| id := lit "n1";
            content :=
              JString (lit "Chat is not configured. No webhook URL found.");
            sender := Ai; timestamp := lit "2026-01-01T00:00:00.000Z";
            replyTo := None; isSystem := Some true; failedInput := None |}
         (setLastSendRef 5000 initialState)).
Proof.
  destruct (proj1 (send_without_webhook bareConfig false initialState
                     (sampleEnv 5000 "n1") (lit "Hello") eq_refl) eq_refl)
    as (st' & E & _ & _ & ->); [vm_compute; discriminate|].
  exact E.
Defined.

(** C7 as stated fails: with no webhook URL configured, a valid text
    sent 500 ms after the last accepted send appends nothing at all. *)
Lemma send_without_webhook_counterexample :
  let st := setLastSendRef 4500 initialState in
  webhookUrl bareConfig = []
  /\ valid (validateInput (lit "Hello")) = true
  /\ sendMessage_begin bareConfig false st (sampleEnv 5000 "n1") (lit "Hello")
     = Returned st
  /\ messages st = [].
Proof. vm_compute. repeat split. Qed.

Lemma retry_drops_failed_exchange_witness :
  handleRetry sampleConfig false failedState (sampleEnv 100400 "u2")
    (lit "e1") (lit "Hello")
  = Returned (setMessages (fun _ => []) failedState).
Proof.
  destruct (retry_drops_failed_exchange sampleConfig false failedState
              (sampleEnv 100400 "u2") (lit "e1") (lit "Hello")
              [] sampleUser sampleError [] eq_refl)
    as (st' & E & _ & _ & ->).
  - repeat constructor. discriminate.
  - reflexivity.
  - right. reflexivity.
  - exact E.
Defined.

Lemma send_success_reply_witness :
  messages (sendMessage sampleConfig false initialState (sampleEnv 5000 "u1")
              (lit "Hello")
              (Response 200 (Some (JObject [(lit "output", JString (lit "Hi!"))])))
              (sampleStamp "a1"))
  = [ {| id := lit "u1"; content := JString (lit "Hello"); sender := User;
         timestamp := lit "2026-01-01T00:00:00.000Z";
         replyTo := None; isSystem := None; failedInput := None |};
      {| id := lit "a1"; content := JString (lit "Hi!"); sender := Ai;
         timestamp := lit "2026-01-01T00:00:01.000Z";
         replyTo := Some (lit "u1"); isSystem := None;
         failedInput := None |} ].
Proof.
  unfold sendMessage.
  destruct (sendMessage_begin sampleConfig false initialState
              (sampleEnv 5000 "u1") (lit "Hello")) as [st1|st1 p] eqn:E;
    [vm_compute in E; discriminate|].
  destruct (send_success_reply sampleConfig false initialState
              (sampleEnv 5000 "u1") (lit "Hello") st1 p 200
              (sampleStamp "a1") st1 E eq_refl) as (_ & Hd & _).
  destruct (Hd (JObject [(lit "output", JString (lit "Hi!"))]))
    as (Hm & Ho & _); [discriminate|].
  rewrite Hm.
  rewrite (Ho (JString (lit "Hi!")) eq_refl eq_refl).
  vm_compute in E. injection E as <- <-. reflexivity.
Defined.

(** C5 as stated fails: the body [{output: '', text: 'hi'}] has the
    field output present, yet the reply reads 'hi'. *)
Lemma send_success_reply_counterexample :
  let data := JObject [(lit "output", JString []); (lit "text", JString (lit "hi"))] in
  List.map content
    (messages (sendMessage sampleConfig false initialState
                 (sampleEnv 5000 "u1") (lit "Hello")
                 (Response 200 (Some data)) (sampleStamp "a1")))
  = [JString (lit "Hello"); JString (lit "hi")]
  /\ firstPresentField data = JString []
  /\ replyContent data <> firstPresentField data.
Proof. vm_compute. repeat split. discriminate. Qed.

(** * Further properties of the code *)

(** ** Trimming and sanitizing *)

Lemma trimStart_split (s : jsstring) :
  exists ws, s = ws ++ trimStart s /\ allWhiteSpace ws.
Proof.
  induction s as [|c s (ws & E & Hws)]; [exists []; split; [reflexivity|constructor]|].
  simpl. destruct (isWhiteSpace c) eqn:Ec.
  - exists (c :: ws). split; [simpl; congruence | constructor; assumption].
  - exists []. split; [reflexivity | constructor].
Qed.

Lemma trimStart_head (s : jsstring) :
  match trimStart s with c :: _ => isWhiteSpace c = false | [] => True end.
Proof.
  induction s as [|c s IH]; simpl; [exact I|].
  destruct (isWhiteSpace c) eqn:Ec; [exact IH | exact Ec].
Qed.

Lemma trimStart_ws_app (ws s : jsstring) :
  allWhiteSpace ws -> trimStart (ws ++ s) = trimStart s.
Proof.
  induction 1 as [|c ws Hc _ IH]; simpl; [reflexivity|]. rewrite Hc. exact IH.
Qed.

Lemma trimStart_allWhiteSpace (ws : jsstring) :
  allWhiteSpace ws -> trimStart ws = [].
Proof.
  intros H. rewrite <- (app_nil_r ws). rewrite trimStart_ws_app by exact H.
  reflexivity.
Qed.

Lemma trimStart_keep (s t : jsstring) :
  trimStart s <> [] -> trimStart (s ++ t) = trimStart s ++ t.
Proof.
  induction s as [|c s IH]; simpl; [contradiction|].
  destruct (isWhiteSpace c); [exact IH | reflexivity].
Qed.

Lemma allWhiteSpace_rev (ws : jsstring) : allWhiteSpace ws -> allWhiteSpace (rev ws).
Proof. apply List.Forall_rev. Qed.

Lemma trimEnd_split (s : jsstring) :
  exists ws, s = trimEnd s ++ ws /\ allWhiteSpace ws.
Proof.
  unfold trimEnd. destruct (trimStart_split (rev s)) as (ws & E & Hws).
  exists (rev ws). split; [|apply allWhiteSpace_rev, Hws].
  rewrite <- rev_app_distr, <- E, rev_involutive. reflexivity.
Qed.

Lemma trimEnd_ws_app (s ws : jsstring) :
  allWhiteSpace ws -> trimEnd (s ++ ws) = trimEnd s.
Proof.
  intros H. unfold trimEnd. rewrite rev_app_distr.
  rewrite trimStart_ws_app by (apply allWhiteSpace_rev, H). reflexivity.
Qed.

Lemma trimEnd_nil_iff (s : jsstring) : trimEnd s = [] -> allWhiteSpace s.
Proof.
  intros H. destruct (trimEnd_split s) as (ws & E & Hws).
  rewrite H in E. simpl in E. subst ws. exact Hws.
Qed.

(** [trim] takes white space off both ends and nothing else. *)
Lemma trim_split (s : jsstring) :
  exists ws1 ws2, s = ws1 ++ trim s ++ ws2 /\ allWhiteSpace ws1 /\ allWhiteSpace ws2.
Proof.
  unfold trim. destruct (trimStart_split s) as (ws1 & E1 & H1).
  destruct (trimEnd_split (trimStart s)) as (ws2 & E2 & H2).
  exists ws1, ws2. split; [|split; assumption].
  rewrite <- E2. exact E1.
Qed.

Lemma trim_length (s : jsstring) : (length (trim s) <= length s)%nat.
Proof.
  destruct (trim_split s) as (ws1 & ws2 & E & _).
  rewrite E at 2. rewrite !length_app. lia.
Qed.

Lemma trim_ws_around (ws1 s ws2 : jsstring) :
  allWhiteSpace ws1 -> allWhiteSpace ws2 -> trim (ws1 ++ s ++ ws2) = trim s.
Proof.
  intros H1 H2. unfold trim. rewrite trimStart_ws_app by exact H1.
  destruct (trimStart s) as [|c t] eqn:Es.
  - destruct (trimStart_split s) as (ws & E & Hws). rewrite Es, app_nil_r in E.
    subst ws. rewrite trimStart_allWhiteSpace; [reflexivity|].
    apply Forall_app. split; assumption.
  - rewrite trimStart_keep by (rewrite Es; discriminate).
    rewrite Es. apply trimEnd_ws_app, H2.
Qed.

Lemma trimStart_fixed (s : jsstring) :
  match s with c :: _ => isWhiteSpace c = false | [] => True end ->
  trimStart s = s.
Proof. destruct s as [|c s]; simpl; [reflexivity|]. intros ->. reflexivity. Qed.

Lemma last_rev_head (s : jsstring) : last s = head (rev s).
Proof.
  induction s as [|c s IH] using rev_ind; [reflexivity|].
  rewrite last_snoc, rev_app_distr. reflexivity.
Qed.

Lemma trim_fixed (s : jsstring) : trimmed s -> trim s = s.
Proof.
  intros H. destruct s as [|c s]; [reflexivity|]. destruct H as [Hc Hl].
  unfold trim. rewrite trimStart_fixed by exact Hc.
  unfold trimEnd. rewrite last_rev_head in Hl.
  rewrite trimStart_fixed; [apply rev_involutive|].
  destruct (rev (c :: s)) as [|d r]; [exact I|].
  simpl in Hl. congruence.
Qed.

Lemma trim_trimmed (s : jsstring) : trimmed (trim s).
Proof.
  unfold trimmed. destruct (trim s) as [|c t] eqn:E; [exact I|].
  unfold trim, trimEnd in E.
  pose proof (trimStart_head (rev (trimStart s))) as Hl.
  pose proof (trimStart_head s) as Hh.
  split.
  - destruct (trimEnd_split (trimStart s)) as (ws & E2 & _).
    unfold trimEnd in E2. rewrite E in E2.
    rewrite E2 in Hh. exact Hh.
  - rewrite last_rev_head. rewrite <- E, rev_involutive.
    destruct (trimStart (rev (trimStart s))) as [|d r] eqn:Er.
    + try rewrite Er in E. discriminate.
    + simpl. rewrite Hl. reflexivity.
Qed.

Lemma stripFragments_sublist (fuel : nat) : forall s,
  stripFragments fuel s `sublist_of` s.
Proof.
  induction fuel as [|fuel IH]; intros s; [reflexivity|].
  destruct s as [|c s]; [reflexivity|]. cbn [stripFragments].
  destruct (scriptFragment (c :: s)) as [r|] eqn:E.
  - apply scriptFragment_drop in E as (m & -> & _).
    transitivity (drop (S m) (c :: s)); [apply IH | apply sublist_drop].
  - apply sublist_skip, IH.
Qed.

(** X1. [validateInput] only ever leaves code units out: the text it
    returns as [sanitized] is a subsequence of its input, in the input's
    order, and when the answer is valid it is at most 500 code units
    long. *)
Theorem validateInput_sanitized_sublist (input : jsstring) :
  sanitized (validateInput input) `sublist_of` input /\
  (valid (validateInput input) = true ->
   (length (sanitized (validateInput input)) <= 500)%nat).
Proof.
  assert (Ht : trim input `sublist_of` input).
  { destruct (trim_split input) as (ws1 & ws2 & E & _). rewrite E at 2.
    apply sublist_inserts_l, sublist_inserts_r. reflexivity. }
  unfold validateInput, MIN_MESSAGE_LENGTH, MAX_MESSAGE_LENGTH.
  destruct (Nat.ltb_spec (length (trim input)) 1); [split; [exact Ht|discriminate]|].
  destruct (Nat.ltb_spec 500 (length (trim input))); [split; [exact Ht|discriminate]|].
  cbn [sanitized valid]. rewrite replace_scriptRe.
  pose proof (stripFragments_sublist (length (trim input)) (trim input)) as Hs.
  fold (stripScriptFragments (trim input)) in Hs. split.
  - transitivity (trim input); assumption.
  - intros _. apply sublist_length in Hs. lia.
Qed.

(** X2. White space around the text does not matter to [validateInput]:
    with any white space put in front and behind, the answer is the
    same. *)
Theorem validateInput_ignores_outer_space (ws1 s ws2 : jsstring) :
  allWhiteSpace ws1 -> allWhiteSpace ws2 ->
  validateInput (ws1 ++ s ++ ws2) = validateInput s.
Proof.
  intros H1 H2. unfold validateInput. rewrite (trim_ws_around _ _ _ H1 H2).
  reflexivity.
Qed.

Lemma validateInput_ignores_outer_space_witness :
  validateInput (lit "  " ++ lit "Hi there" ++ [10%N; 9%N])
  = validateInput (lit "Hi there").
Proof.
  apply validateInput_ignores_outer_space; repeat constructor.
Defined.

Lemma strip_cons_none (c : N) (s : jsstring) :
  scriptFragment (c :: s) = None ->
  stripScriptFragments (c :: s) = c :: stripScriptFragments s.
Proof.
  intros H. unfold stripScriptFragments. cbn [length stripFragments].
  rewrite H. reflexivity.
Qed.

Lemma strip_fragment (s rest : jsstring) :
  scriptFragment s = Some rest ->
  stripScriptFragments s = stripScriptFragments rest.
Proof.
  intros H. destruct (scriptFragment_drop s rest H) as (m & E & Hm).
  unfold stripScriptFragments at 1.
  destruct s as [|c s]; [simpl in Hm; lia|].
  cbn [length stripFragments]. rewrite H.
  apply stripFragments_fuel. rewrite E, length_drop. simpl. lia.
Qed.

Lemma strip_plain_app (plain rest : jsstring) :
  Forall (fun c => c <> ltSign) plain ->
  stripScriptFragments (plain ++ rest) = plain ++ stripScriptFragments rest.
Proof.
  induction 1 as [|c plain Hc _ IH]; [reflexivity|].
  rewrite <- !app_comm_cons. rewrite strip_cons_none.
  - rewrite IH. reflexivity.
  - apply scriptFragment_needs_lt. simpl. congruence.
Qed.

Lemma afterClosingTag_plain (plain post : jsstring) :
  Forall (fun c => c <> ltSign) plain ->
  afterClosingTag (plain ++ closeTag ++ post) = Some post.
Proof.
  induction 1 as [|c plain Hc _ IH]; [reflexivity|].
  rewrite <- app_comm_cons. cbn [afterClosingTag].
  rewrite stripPrefixCI_close_none by (simpl; congruence). exact IH.
Qed.

(** A whole script element, with nothing inside that opens a tag, is
    one fragment. *)
Lemma scriptFragment_element (body post : jsstring) :
  Forall (fun c => c <> ltSign) body ->
  scriptFragment (lit "<script>" ++ body ++ closeTag ++ post) = Some post.
Proof.
  intros Hb. unfold scriptFragment.
  change (stripPrefixCI openTag (lit "<script>" ++ body ++ closeTag ++ post))
    with (Some (62%N :: body ++ closeTag ++ post)).
  cbn [head isWordAt]. change (isWordChar 62) with false. cbn iota.
  apply (afterClosingTag_plain (62%N :: body) post).
  constructor; [discriminate | exact Hb].
Qed.

Lemma trimmed_tagged (pre mid : jsstring) :
  trimmed ((60%N :: pre) ++ mid ++ closeTag).
Proof.
  split; [reflexivity|].
  change closeTag with (lit "</script" ++ [62%N]).
  rewrite !app_assoc, last_snoc. reflexivity.
Qed.

Lemma validateInput_element (body : jsstring) :
  Forall (fun c => c <> ltSign) body -> (length body <= 483)%nat ->
  validateInput (lit "<script>" ++ body ++ closeTag)
  = {| valid := true; error := None; sanitized := [] |}.
Proof.
  intros Hb Hl. unfold validateInput.
  change (lit "<script>" ++ body ++ closeTag)
    with ((60%N :: lit "script>") ++ body ++ closeTag).
  rewrite (trim_fixed _ (trimmed_tagged (lit "script>") body)).
  rewrite !length_app.
  change (length (60%N :: lit "script>")) with 8%nat.
  change (length closeTag) with 9%nat.
  unfold MIN_MESSAGE_LENGTH, MAX_MESSAGE_LENGTH.
  destruct (Nat.ltb_spec (8 + (length body + 9)) 1); [lia|].
  destruct (Nat.ltb_spec 500 (8 + (length body + 9))); [lia|].
  rewrite replace_scriptRe.
  change ((60%N :: lit "script>") ++ body ++ closeTag)
    with (lit "<script>" ++ body ++ closeTag).
  rewrite <- (app_nil_r closeTag).
  rewrite (strip_fragment _ _ (scriptFragment_element body [] Hb)).
  reflexivity.
Qed.

(** X3. A valid answer can carry an empty text: a script element with
    nothing inside that opens a tag, at most 500 code units in all, is
    valid, and its sanitized text is the empty string. *)
Theorem validateInput_valid_but_empty (body : jsstring) :
  Forall (fun c => c <> ltSign) body -> (length body <= 483)%nat ->
  valid (validateInput (lit "<script>" ++ body ++ lit "</script>")) = true /\
  sanitized (validateInput (lit "<script>" ++ body ++ lit "</script>")) = [].
Proof.
  intros Hb Hl. change (lit "</script>") with closeTag.
  rewrite (validateInput_element body Hb Hl). split; reflexivity.
Qed.

Lemma validateInput_valid_but_empty_witness :
  valid (validateInput (lit "<script>" ++ lit "alert(1)" ++ lit "</script>")) = true /\
  sanitized (validateInput (lit "<script>" ++ lit "alert(1)" ++ lit "</script>")) = [].
Proof.
  apply validateInput_valid_but_empty.
  - repeat constructor; discriminate.
  - vm_compute. apply Nat.leb_le. reflexivity.
Defined.

(** X4. The pattern is applied once, so the sanitized text can itself
    hold a script element: when an empty script element is cut out of
    the middle of an opening tag, the pieces around it close up to a
    script element, which is kept; validating that text once more
    removes it. *)
Theorem validateInput_single_pass (body : jsstring) :
  Forall (fun c => c <> ltSign) body -> (length body <= 466)%nat ->
  validateInput (lit "<scr<script></script>ipt>" ++ body ++ lit "</script>")
  = {| valid := true; error := None;
       sanitized := lit "<script>" ++ body ++ lit "</script>" |} /\
  sanitized (validateInput (lit "<script>" ++ body ++ lit "</script>")) = [].
Proof.
  intros Hb Hl. change (lit "</script>") with closeTag. split.
  - unfold validateInput.
    change (lit "<scr<script></script>ipt>" ++ body ++ closeTag)
      with ((60%N :: lit "scr<script></script>ipt>") ++ body ++ closeTag).
    rewrite (trim_fixed _ (trimmed_tagged (lit "scr<script></script>ipt>") body)).
    rewrite !length_app.
    change (length (60%N :: lit "scr<script></script>ipt>")) with 25%nat.
    change (length closeTag) with 9%nat.
    unfold MIN_MESSAGE_LENGTH, MAX_MESSAGE_LENGTH.
    destruct (Nat.ltb_spec (25 + (length body + 9)) 1); [lia|].
    destruct (Nat.ltb_spec 500 (25 + (length body + 9))); [lia|].
    rewrite replace_scriptRe. f_equal.
    change ((60%N :: lit "scr<script></script>ipt>") ++ body ++ closeTag)
      with (60%N :: lit "scr" ++ lit "<script>" ++ [] ++ closeTag
              ++ (lit "ipt>" ++ body ++ closeTag)).
    rewrite strip_cons_none by reflexivity.
    rewrite strip_plain_app by (repeat constructor; discriminate).
    rewrite (strip_fragment _ _ (scriptFragment_element [] _ (List.Forall_nil _))).
    rewrite app_assoc.
    rewrite strip_plain_app
      by (apply Forall_app; split; [repeat constructor; discriminate | exact Hb]).
    change (stripScriptFragments closeTag) with closeTag.
    rewrite <- app_assoc. reflexivity.
  - rewrite (validateInput_element body Hb); [reflexivity | lia].
Qed.

Lemma validateInput_single_pass_witness :
  validateInput (lit "<scr<script></script>ipt>" ++ lit "alert(1)" ++ lit "</script>")
  = {| valid := true; error := None;
       sanitized := lit "<script>" ++ lit "alert(1)" ++ lit "</script>" |} /\
  sanitized (validateInput (lit "<script>" ++ lit "alert(1)" ++ lit "</script>")) = [].
Proof.
  apply validateInput_single_pass.
  - repeat constructor; discriminate.
  - vm_compute. apply Nat.leb_le. reflexivity.
Defined.

(** ** Sending: what reaches the webhook and what does not *)

Lemma validateInput_valid (s : jsstring) :
  (1 <= length (trim s) <= 500)%nat ->
  validateInput s =
  {| valid := true; error := None;
     sanitized := stripScriptFragments (trim s) |}.
Proof.
  intros H. unfold validateInput, MIN_MESSAGE_LENGTH, MAX_MESSAGE_LENGTH.
  destruct (Nat.ltb_spec (length (trim s)) 1); [lia|].
  destruct (Nat.ltb_spec 500 (length (trim s))); [lia|].
  rewrite replace_scriptRe. reflexivity.
Qed.

Lemma removeRetryPair_unchanged errorMsgId (prev : list ChatMessage) :
  Forall (fun m => id m <> errorMsgId) prev \/
  (exists e post, prev = e :: post /\ id e = errorMsgId) ->
  removeRetryPair errorMsgId prev = prev.
Proof.
  intros [Hall | (e & post & -> & He)]; unfold removeRetryPair.
  - rewrite findIndex_none; [reflexivity|].
    eapply Forall_impl; [exact Hall|]. intros m Hm. apply jsstring_eqb_neq, Hm.
  - simpl. apply jsstring_eqb_eq in He. rewrite He. reflexivity.
Qed.

Lemma setMessages_same (f : list ChatMessage -> list ChatMessage) (st : AppState) :
  f (messages st) = messages st -> setMessages f st = st.
Proof. intros H. destruct st. unfold setMessages. simpl in *. rewrite H. reflexivity. Qed.

Section Sending.

Variable config : Config.
Variable isEmbedded : bool.

Lemma sendMessage_begin_reaches_fetch st env text :
  isLoading st = false ->
  RATE_LIMIT_MS <= now env - lastSendRef st ->
  webhookUrl config <> [] ->
  valid (validateInput text) = true ->
  exists st1 p, sendMessage_begin config isEmbedded st env text = Awaiting st1 p.
Proof.
  intros Hl Hg Hu Hv. unfold sendMessage_begin.
  rewrite Hl, (rateGate_pass _ _ Hg), Hv.
  destruct (webhookUrl config); [contradiction|]. cbn [isNonEmpty negb].
  destruct (getSessionId _ _). eauto.
Qed.

Lemma sendMessage_begin_clears_input st env text st1 p :
  sendMessage_begin config isEmbedded st env text = Awaiting st1 p ->
  inputValue st1 = [].
Proof.
  unfold sendMessage_begin.
  destruct (isLoading st); [discriminate|].
  destruct (rateGate _ _); [|discriminate].
  destruct (negb (isNonEmpty (webhookUrl config))); [discriminate|].
  destruct (negb (valid (validateInput text))); [discriminate|].
  match goal with
  | |- (let '(_, _) := getSessionId ?f ?s in _) = _ -> _ =>
      pose proof (getSessionId_frame f s) as Hs;
      destruct (getSessionId f s) as [sid st'] eqn:Esid
  end.
  cbn [snd] in Hs. intros [= <- <-]. cbn [fetch inputValue].
  destruct Hs as (_ & _ & -> & _).
  destruct (isTypingRef _); [|reflexivity].
  rewrite (proj1 (proj2 (proj2 (postToParent_frame _ _ _ _)))). reflexivity.
Qed.

(** X5. A text that fails validation still uses up the send cooldown:
    with a webhook configured and the gate open, [sendMessage] on such a
    text appends nothing and issues no request, yet stores the time of
    the call, so that any send within the next 2000 ms is turned away. *)
Theorem send_invalid_takes_slot st env text :
  isLoading st = false ->
  RATE_LIMIT_MS <= now env - lastSendRef st ->
  webhookUrl config <> [] ->
  valid (validateInput text) = false ->
  sendMessage_begin config isEmbedded st env text
  = Returned (setLastSendRef (now env) st) /\
  forall env2 text2,
    now env2 - now env < RATE_LIMIT_MS ->
    sendMessage_begin config isEmbedded (setLastSendRef (now env) st) env2 text2
    = Returned (setLastSendRef (now env) st).
Proof.
  intros Hl Hg Hu Hv. split.
  - unfold sendMessage_begin. rewrite Hl, (rateGate_pass _ _ Hg), Hv.
    destruct (webhookUrl config); [contradiction | reflexivity].
  - intros env2 text2 H. apply sendMessage_begin_blocked. right. exact H.
Qed.

(** X6. What the input box lets through is never rejected further
    down: with an input of at most 500 code units that is not blank, no
    send in flight, the cooldown over and a webhook configured,
    [handleSend] appends the user message, empties the input and posts
    one request, both carrying the trimmed text without its script
    fragments.  On a blank input, or while a send is in flight, it does
    nothing at all. *)
Theorem handleSend_admitted st env :
  (isLoading st = false ->
   trim (inputValue st) <> [] ->
   (length (inputValue st) <= 500)%nat ->
   RATE_LIMIT_MS <= now env - lastSendRef st ->
   webhookUrl config <> [] ->
   exists st1 p sessionId,
     handleSend config isEmbedded st env = Awaiting st1 p /\
     messages st1 = messages st ++
       [{| id := stampId (stamp env);
           content := JString (stripScriptFragments (trim (inputValue st)));
           sender := User; timestamp := stampTime (stamp env);
           replyTo := None; isSystem := None; failedInput := None |}] /\
     inputValue st1 = [] /\
     requests st1 = requests st ++
       [SendRequest (webhookUrl config) sessionId (stampId (stamp env))
          (stripScriptFragments (trim (inputValue st)))]) /\
  (trim (inputValue st) = [] \/ isLoading st = true ->
   handleSend config isEmbedded st env = Returned st).
Proof.
  split.
  - intros Hl Hne Hlen Hg Hu.
    assert (Hv : validateInput (inputValue st)
                 = {| valid := true; error := None;
                      sanitized := stripScriptFragments (trim (inputValue st)) |}).
    { apply validateInput_valid. pose proof (trim_length (inputValue st)).
      destruct (trim (inputValue st)); [contradiction | simpl in *; lia]. }
    unfold handleSend. rewrite Hl.
    destruct (trim (inputValue st)) eqn:Et; [contradiction|].
    cbn [isNonEmpty negb andb]. rewrite <- Et in *.
    destruct (sendMessage_begin_reaches_fetch st env (inputValue st) Hl Hg Hu)
      as (st1 & p & E); [rewrite Hv; reflexivity|].
    pose proof (sendMessage_begin_clears_input _ _ _ _ _ E) as Hi.
    pose proof E as E0.
    apply sendMessage_begin_awaiting in E0
      as (_ & _ & _ & _ & _ & Hum & Hm & _ & _ & sid & Hr).
    rewrite Hv in Hum, Hr. cbn [sanitized] in Hum, Hr.
    exists st1, p, sid. rewrite <- Hum. repeat split; assumption.
  - intros [H | H]; unfold handleSend; [rewrite H | rewrite H, andb_false_r];
      reflexivity.
Qed.

Lemma orElse_truthy_default (a : option JsValue) (b : JsValue) :
  truthy b = true -> truthy (orElse a b) = true.
Proof.
  intros Hb. destruct a as [v|]; [|exact Hb]. simpl.
  destruct (truthy v) eqn:Ev; [exact Ev | exact Hb].
Qed.

Lemma replyContent_truthy (data : JsValue) : truthy (replyContent data) = true.
Proof.
  unfold replyContent. repeat apply orElse_truthy_default. reflexivity.
Qed.

(** X7. A retry that passes the guards takes the failed exchange out and
    sends again: the user message and the error notice are removed, the
    new user message is appended at the end of what remains, and one
    request is posted, both carrying the original input validated
    anew.  When the notice is the first message, or its id is not in
    the transcript, nothing is removed and the retry is a plain send. *)
Theorem handleRetry_resends st env errorMsgId originalInput :
  (forall pre u e post,
     messages st = pre ++ u :: e :: post ->
     Forall (fun m => id m <> errorMsgId) (pre ++ [u]) ->
     id e = errorMsgId ->
     isLoading st = false ->
     RATE_LIMIT_MS <= now env - lastSendRef st ->
     webhookUrl config <> [] ->
     valid (validateInput originalInput) = true ->
     exists st1 p sessionId,
       handleRetry config isEmbedded st env errorMsgId originalInput
       = Awaiting st1 p /\
       messages st1 = pre ++ post ++ [userMessage p] /\
       content (userMessage p)
       = JString (sanitized (validateInput originalInput)) /\
       sender (userMessage p) = User /\
       requests st1 = requests st ++
         [SendRequest (webhookUrl config) sessionId (stampId (stamp env))
            (sanitized (validateInput originalInput))]) /\
  (Forall (fun m => id m <> errorMsgId) (messages st) \/
   (exists e post, messages st = e :: post /\ id e = errorMsgId) ->
   handleRetry config isEmbedded st env errorMsgId originalInput
   = sendMessage_begin config isEmbedded st env originalInput).
Proof.
  split.
  - intros pre u e post Hm Hpre He Hl Hg Hu Hv. unfold handleRetry.
    destruct (sendMessage_begin_reaches_fetch
                (setMessages (removeRetryPair errorMsgId) st) env originalInput
                Hl Hg Hu Hv) as (st1 & p & E).
    exists st1, p. pose proof E as E0.
    apply sendMessage_begin_awaiting in E0
      as (_ & _ & _ & _ & _ & Hum & Hms & _ & _ & sid & Hr).
    exists sid. split; [exact E|].
    cbn [setMessages messages requests] in Hms, Hr.
    rewrite Hm, (removeRetryPair_found _ _ _ _ _ Hpre He) in Hms.
    rewrite Hms, Hum, <- app_assoc. repeat split. exact Hr.
  - intros H. unfold handleRetry.
    rewrite setMessages_same; [reflexivity|].
    apply removeRetryPair_unchanged, H.
Qed.

(** X8. The loading latch.  A send that reaches its fetch holds the
    latch, so that every further send is turned away while it is in
    flight; whatever the fetch ends in, the continuation releases the
    latch, appends exactly one message of sender ai, stamped with the
    new id and never blank, and posts no request. *)
Theorem send_settles st env text st1 p :
  sendMessage_begin config isEmbedded st env text = Awaiting st1 p ->
  (forall env2 text2,
     sendMessage_begin config isEmbedded st1 env2 text2 = Returned st1) /\
  forall outcome s st2,
    isLoading (sendMessage_resume config isEmbedded p outcome s st2) = false /\
    requests (sendMessage_resume config isEmbedded p outcome s st2)
    = requests st2 /\
    exists m,
      messages (sendMessage_resume config isEmbedded p outcome s st2)
      = messages st2 ++ [m] /\
      id m = stampId s /\ sender m = Ai /\ truthy (content m) = true.
Proof.
  intros Hb. apply sendMessage_begin_awaiting in Hb
    as (_ & _ & _ & _ & _ & _ & _ & Hl & _).
  split.
  - intros env2 text2. apply sendMessage_begin_blocked. left. exact Hl.
  - intros outcome s st2. unfold sendMessage_resume.
    destruct (readReply outcome) as [e | reply] eqn:Er;
      cbn [setIsLoading isLoading requests messages].
    + repeat split. eexists. split; [reflexivity|]. repeat split.
      destruct (isTimeout e); reflexivity.
    + destruct (postToParent_frame config isEmbedded
                  (EvMessageSent (userMessage p))
                  (append {| id := stampId s; content := reply; sender := Ai;
                             timestamp := stampTime s;
                             replyTo := Some (id (userMessage p));
                             isSystem := None; failedInput := None |} st2))
        as (Hm & _ & _ & _ & _ & _ & _ & _ & _ & _ & Hr).
      rewrite Hm, Hr. repeat split. eexists. split; [reflexivity|].
      repeat split. cbn [content].
      destruct outcome as [| |status [data|]]; simpl in Er; try discriminate;
        destruct (negb (ok status)); try discriminate.
      destruct data; try discriminate; injection Er as <-;
        apply replyContent_truthy.
Qed.

End Sending.

Lemma send_invalid_takes_slot_witness :
  sendMessage_begin sampleConfig false initialState (sampleEnv 5000 "u1")
    (List.repeat 97%N 501)
  = Returned (setLastSendRef 5000 initialState) /\
  sendMessage_begin sampleConfig false (setLastSendRef 5000 initialState)
    (sampleEnv 6999 "u2") (lit "Hello")
  = Returned (setLastSendRef 5000 initialState).
Proof.
  destruct (send_invalid_takes_slot sampleConfig false initialState
              (sampleEnv 5000 "u1") (List.repeat 97%N 501))
    as [H1 H2]; try (vm_compute; discriminate); try reflexivity.
  split; [exact H1|]. apply (H2 (sampleEnv 6999 "u2") (lit "Hello")).
  reflexivity.
Defined.

Lemma handleSend_admitted_witness :
  (exists st1 p,
     handleSend sampleConfig false (setInputValue (lit " Hello ") initialState)
       (sampleEnv 5000 "u1") = Awaiting st1 p /\
     List.map content (messages st1) = [JString (lit "Hello")] /\
     inputValue st1 = []) /\
  handleSend sampleConfig false (setInputValue (lit "   ") initialState)
    (sampleEnv 5000 "u1")
  = Returned (setInputValue (lit "   ") initialState).
Proof.
  split.
  - destruct (proj1 (handleSend_admitted sampleConfig false
                       (setInputValue (lit " Hello ") initialState)
                       (sampleEnv 5000 "u1")))
      as (st1 & p & sid & E & Hm & Hi & _);
      try reflexivity; try (vm_compute; discriminate);
      try (apply Nat.leb_le; vm_compute; reflexivity).
    exists st1, p. split; [exact E|]. split; [|exact Hi].
    rewrite Hm. reflexivity.
  - apply (proj2 (handleSend_admitted sampleConfig false
                    (setInputValue (lit "   ") initialState)
                    (sampleEnv 5000 "u1"))).
    left. reflexivity.
Defined.

Lemma handleRetry_resends_witness :
  exists st1 p,
    handleRetry sampleConfig false failedState (sampleEnv 102000 "u2")
      (lit "e1") (lit "Hello") = Awaiting st1 p /\
    List.map id (messages st1) = [lit "u2"] /\
    List.map content (messages st1) = [JString (lit "Hello")].
Proof.
  destruct (proj1 (handleRetry_resends sampleConfig false failedState
                     (sampleEnv 102000 "u2") (lit "e1") (lit "Hello"))
              [] sampleUser sampleError [])
    as (st1 & p & sid & E & Hm & Hc & _);
    try reflexivity; try (vm_compute; discriminate).
  - repeat constructor. discriminate.
  - exists st1, p. split; [exact E|].
    rewrite Hm. vm_compute in E. injection E as _ <-. split; reflexivity.
Defined.

Lemma send_settles_witness :
  exists st1 p,
    sendMessage_begin sampleConfig false initialState (sampleEnv 5000 "u1")
      (lit "Hello") = Awaiting st1 p /\
    sendMessage_begin sampleConfig false st1 (sampleEnv 9000 "u2") (lit "More")
    = Returned st1 /\
    isLoading (sendMessage_resume sampleConfig false p (Response 500 None)
                 (sampleStamp "e1") st1) = false.
Proof.
  destruct (sendMessage_begin sampleConfig false initialState
              (sampleEnv 5000 "u1") (lit "Hello")) as [st1|st1 p] eqn:E;
    [vm_compute in E; discriminate|].
  destruct (send_settles sampleConfig false initialState (sampleEnv 5000 "u1")
              (lit "Hello") st1 p E) as [H1 H2].
  exists st1, p. split; [reflexivity|]. split; [apply H1|].
  apply (H2 (Response 500 None) (sampleStamp "e1") st1).
Defined.

(** ** The session id *)

Lemma getSessionId_fst (fresh : jsstring) (a b : AppState) :
  storedSessionId a = storedSessionId b ->
  fst (getSessionId fresh a) = fst (getSessionId fresh b).
Proof. intros H. unfold getSessionId. rewrite H. destruct (orNull _); reflexivity. Qed.

Lemma getSessionId_stored (fresh : jsstring) (st : AppState) :
  fresh <> [] ->
  fst (getSessionId fresh st) <> [] /\
  storedSessionId (snd (getSessionId fresh st))
  = Some (fst (getSessionId fresh st)).
Proof.
  intros Hf. unfold getSessionId.
  destruct (storedSessionId st) as [[|c sid]|] eqn:E; simpl;
    rewrite ?E; split; congruence.
Qed.

(** X9. The session id is made once and then kept: a call of
    [getSessionId] returns a non-empty id and leaves it in storage, and
    every later call returns that same id and changes nothing, whatever
    id it would have generated; an id that is already stored is returned
    as it is. *)
Theorem getSessionId_stable (fresh fresh' : jsstring) (st : AppState) :
  fresh <> [] ->
  fst (getSessionId fresh st) <> [] /\
  storedSessionId (snd (getSessionId fresh st))
  = Some (fst (getSessionId fresh st)) /\
  getSessionId fresh' (snd (getSessionId fresh st))
  = getSessionId fresh st /\
  (forall sid, storedSessionId st = Some sid -> sid <> [] ->
     getSessionId fresh st = (sid, st)).
Proof.
  intros Hf. destruct (getSessionId_stored fresh st Hf) as [Hne Hst].
  split; [exact Hne|]. split; [exact Hst|]. split.
  - unfold getSessionId at 1. rewrite Hst.
    destruct (fst (getSessionId fresh st)) as [|c sid] eqn:E; [contradiction|].
    cbn [orNull isNonEmpty]. rewrite <- E. symmetry. apply surjective_pairing.
  - intros sid Hs Hsid. unfold getSessionId. rewrite Hs.
    destruct sid; [contradiction | reflexivity].
Qed.

Lemma getSessionId_stable_witness :
  getSessionId (lit "session_2_xyz")
    (snd (getSessionId (lit "session_1_abc") initialState))
  = (lit "session_1_abc", setStoredSessionId (lit "session_1_abc") initialState).
Proof.
  rewrite (proj1 (proj2 (proj2
             (getSessionId_stable (lit "session_1_abc") (lit "session_2_xyz")
                initialState ltac:(discriminate))))).
  reflexivity.
Defined.

(** ** Feedback *)

Section Feedback.

Variable config : Config.
Variable isEmbedded : bool.

Lemma handleFeedback_begin_request st env messageId type :
  RATE_LIMIT_MS <= now env - lastFeedbackRef st ->
  exists st1,
    handleFeedback_begin config isEmbedded st env messageId type
    = Awaiting st1 type /\
    requests st1 =
    requests st ++
    [FeedbackRequest (webhookUrl config)
       (fst (getSessionId (freshSessionId env) st)) messageId
       (orNull (List.find (fun m => jsstring_eqb (id m) messageId) (messages st)
                  ≫= replyTo))
       type].
Proof.
  intros Hg. unfold handleFeedback_begin. rewrite (rateGate_pass _ _ Hg).
  cbn [feedback messages setLastFeedbackRef setFeedback saveFeedback].
  match goal with
  | |- context [getSessionId ?f ?s] =>
      pose proof (getSessionId_frame f s) as Hs;
      pose proof (getSessionId_fst f s st) as Hsid;
      destruct (getSessionId f s) as [sid st'] eqn:Esid
  end.
  cbn [snd fst] in Hs, Hsid.
  destruct Hs as (_ & _ & _ & _ & _ & _ & _ & _ & _ & Hr & _).
  eexists. split; [reflexivity|]. cbn [fetch requests]. rewrite Hr.
  rewrite (proj2 (proj2 (proj2 (proj2 (proj2 (proj2 (proj2 (proj2 (proj2
             (proj2 (postToParent_frame config isEmbedded _ _))))))))))).
  cbn [requests]. rewrite Hsid; [reflexivity|].
  rewrite (proj1 (proj2 (proj2 (proj2 (proj2 (proj2 (proj2 (proj2 (proj2
             (postToParent_frame config isEmbedded _ _)))))))))).
  reflexivity.
Qed.

Lemma find_none_Forall {A} (f : A -> bool) (l : list A) :
  Forall (fun x => f x = false) l -> List.find f l = None.
Proof. induction 1 as [|x l Hx _ IH]; simpl; [reflexivity|]. rewrite Hx. exact IH. Qed.

Lemma find_app_skip {A} (f : A -> bool) (l : list A) (x : A) :
  Forall (fun y => f y = false) l -> f x = true ->
  List.find f (l ++ [x]) = Some x.
Proof.
  intros Hl Hx. induction Hl as [|y l Hy _ IH]; simpl.
  - rewrite Hx. reflexivity.
  - rewrite Hy. exact IH.
Qed.

(** X10. Feedback on a reply names the user message it answers: after a
    successful send whose reply got an id no earlier message carries,
    the request of a vote on that reply has [userMessageId] equal to the
    id of the user message of that send.  A vote on an id that no
    message carries is posted with [userMessageId] null. *)
Theorem feedback_reports_user_message st env text st1 p status data s st2 :
  sendMessage_begin config isEmbedded st env text = Awaiting st1 p ->
  stampId (stamp env) <> [] ->
  ok status = true -> data <> JNull ->
  Forall (fun m => id m <> stampId s) (messages st2) ->
  let st3 :=
    sendMessage_resume config isEmbedded p (Response status (Some data)) s st2 in
  (forall env' type,
     RATE_LIMIT_MS <= now env' - lastFeedbackRef st3 ->
     exists st4 sessionId,
       handleFeedback_begin config isEmbedded st3 env' (stampId s) type
       = Awaiting st4 type /\
       requests st4 =
       requests st3 ++
       [FeedbackRequest (webhookUrl config) sessionId (stampId s)
          (Some (stampId (stamp env))) type]) /\
  (forall env' type messageId,
     RATE_LIMIT_MS <= now env' - lastFeedbackRef st3 ->
     Forall (fun m => id m <> messageId) (messages st3) ->
     exists st4 sessionId,
       handleFeedback_begin config isEmbedded st3 env' messageId type
       = Awaiting st4 type /\
       requests st4 =
       requests st3 ++
       [FeedbackRequest (webhookUrl config) sessionId messageId None type]).
Proof.
  intros Hb Hid Hok Hd Hfresh st3.
  apply sendMessage_begin_awaiting in Hb as (_ & _ & _ & _ & _ & Hu & _).
  assert (Hm : messages st3 = messages st2 ++
                 [{| id := stampId s; content := replyContent data; sender := Ai;
                     timestamp := stampTime s;
                     replyTo := Some (stampId (stamp env));
                     isSystem := None; failedInput := None |}]).
  { unfold st3, sendMessage_resume, readReply. rewrite Hok. cbn [negb].
    assert (E : match data with
                | JNull => (inl TypeError : Exn + JsValue)
                | _ => inr (replyContent data)
                end = inr (replyContent data))
      by (destruct data; [contradiction|reflexivity..]).
    rewrite E. cbn [setIsLoading messages].
    rewrite (proj1 (postToParent_frame config isEmbedded _ _)).
    rewrite Hu. reflexivity. }
  split.
  - intros env' type Hg.
    destruct (handleFeedback_begin_request st3 env' (stampId s) type Hg)
      as (st4 & E & Hr).
    exists st4. eexists. split; [exact E|]. rewrite Hr, Hm.
    rewrite find_app_skip.
    + cbn [mbind option_bind replyTo orNull].
      destruct (stampId (stamp env)); [contradiction | reflexivity].
    + eapply Forall_impl; [exact Hfresh|]. intros m Hmm.
      apply jsstring_eqb_neq, Hmm.
    + apply jsstring_eqb_eq. reflexivity.
  - intros env' type messageId Hg Hnone.
    destruct (handleFeedback_begin_request st3 env' messageId type Hg)
      as (st4 & E & Hr).
    exists st4. eexists. split; [exact E|]. rewrite Hr.
    rewrite find_none_Forall; [reflexivity|].
    eapply Forall_impl; [exact Hnone|]. intros m Hmm.
    apply jsstring_eqb_neq, Hmm.
Qed.

(** X11. A vote that passes the gate is the vote on record for its
    message, in the state and in storage alike, replacing any earlier
    vote on the same message and leaving the votes on all other
    messages as they are; up to the [await] the transcript is as it
    was.  When the request settles, whatever its outcome and whatever
    the state then is, the votes in the state and in storage stay as
    they are, and the transcript stays as it is for a thumbs-up and
    gains exactly the support message, at its end, for a thumbs-down.
    A click on the thumb that is already on record does nothing and
    does not use up the feedback cooldown. *)
Theorem feedback_vote_recorded st env messageId type :
  (RATE_LIMIT_MS <= now env - lastFeedbackRef st ->
   feedback st !! messageId <> Some type ->
   exists st1,
     clickFeedback config isEmbedded st env messageId type = Awaiting st1 type /\
     feedback st1 !! messageId = Some type /\
     (forall other, other <> messageId ->
        feedback st1 !! other = feedback st !! other) /\
     storedFeedback st1 = Some (feedback st1) /\
     messages st1 = messages st) /\
  (forall outcome s st2,
     feedback (handleFeedback_resume type outcome s st2) = feedback st2 /\
     storedFeedback (handleFeedback_resume type outcome s st2)
     = storedFeedback st2 /\
     messages (handleFeedback_resume type outcome s st2)
     = match type with
       | Up => messages st2
       | Down => messages st2 ++ [supportMessage s]
       end) /\
  (feedback st !! messageId = Some type ->
   clickFeedback config isEmbedded st env messageId type = Returned st).
Proof.
  split; [|split].
  - intros Hg Hne.
    destruct (handleFeedback_begin_accepted config isEmbedded st env messageId
                type Hg) as (st1 & E & _ & _ & Hf & Hsf & Hm & _).
    exists st1. split; [|split; [|split; [|split]]].
    + unfold clickFeedback.
      destruct (feedback st !! messageId) as [[]|], type;
        try exact E; contradiction.
    + rewrite Hf. apply lookup_insert_eq.
    + intros other Ho. rewrite Hf. apply lookup_insert_ne. congruence.
    + rewrite Hsf, Hf. reflexivity.
    + exact Hm.
  - intros outcome s st2. destruct type; repeat split.
  - intros H. unfold clickFeedback. rewrite H. destruct type; reflexivity.
Qed.

End Feedback.

Lemma feedback_reports_user_message_witness :
  exists st1 p st4,
    sendMessage_begin sampleConfig false initialState (sampleEnv 5000 "u1")
      (lit "Hello") = Awaiting st1 p /\
    handleFeedback_begin sampleConfig false
      (sendMessage_resume sampleConfig false p
         (Response 200 (Some (JObject [(lit "output", JString (lit "Hi!"))])))
         (sampleStamp "a1") st1)
      (sampleEnv 9000 "x") (lit "a1") Up = Awaiting st4 Up /\
    last (requests st4)
    = Some (FeedbackRequest (lit "https://hook.example/chat")
              (lit "session_1_abc") (lit "a1") (Some (lit "u1")) Up).
Proof.
  destruct (sendMessage_begin sampleConfig false initialState
              (sampleEnv 5000 "u1") (lit "Hello")) as [st1|st1 p] eqn:E;
    [vm_compute in E; discriminate|].
  destruct (feedback_reports_user_message sampleConfig false initialState
              (sampleEnv 5000 "u1") (lit "Hello") st1 p 200
              (JObject [(lit "output", JString (lit "Hi!"))])
              (sampleStamp "a1") st1 E) as [H _];
    try discriminate; try reflexivity.
  { vm_compute in E. injection E as <- <-. repeat constructor; discriminate. }
  destruct (H (sampleEnv 9000 "x") Up) as (st4 & sid & E4 & Hr).
  { vm_compute in E. injection E as <- <-. vm_compute. discriminate. }
  exists st1, p, st4. split; [reflexivity|]. split; [exact E4|].
  vm_compute in E. injection E as <- <-.
  vm_compute in E4. injection E4 as <-. reflexivity.
Defined.

Lemma feedback_vote_recorded_witness :
  (exists st1,
     clickFeedback sampleConfig false failedState (sampleEnv 200000 "x")
       (lit "a1") Down = Awaiting st1 Down /\
     feedback st1 !! lit "a1" = Some Down /\
     messages (handleFeedback_resume Down NetworkError (sampleStamp "s1") st1)
     = messages failedState ++ [supportMessage (sampleStamp "s1")] /\
     messages (handleFeedback_resume Up NetworkError (sampleStamp "s1") st1)
     = messages failedState) /\
  clickFeedback sampleConfig false
    (setFeedback {[ lit "a1" := Up ]} failedState) (sampleEnv 200000 "x")
    (lit "a1") Up
  = Returned (setFeedback {[ lit "a1" := Up ]} failedState).
Proof.
  split.
  - destruct (proj1 (feedback_vote_recorded sampleConfig false failedState
                       (sampleEnv 200000 "x") (lit "a1") Down))
      as (st1 & E & Hf & _ & _ & Hm); [vm_compute; discriminate | discriminate |].
    exists st1. split; [exact E|]. split; [exact Hf|]. split.
    + rewrite (proj2 (proj2 (proj1 (proj2
                 (feedback_vote_recorded sampleConfig false failedState
                    (sampleEnv 200000 "x") (lit "a1") Down))
                 NetworkError (sampleStamp "s1") st1))).
      rewrite Hm. reflexivity.
    + rewrite (proj2 (proj2 (proj1 (proj2
                 (feedback_vote_recorded sampleConfig false failedState
                    (sampleEnv 200000 "x") (lit "a1") Up))
                 NetworkError (sampleStamp "s1") st1))).
      exact Hm.
  - apply (proj2 (proj2 (feedback_vote_recorded sampleConfig false
                    (setFeedback {[ lit "a1" := Up ]} failedState)
                    (sampleEnv 200000 "x") (lit "a1") Up))).
    apply lookup_singleton_eq.
Defined.

(** ** A new conversation *)

(** X12. A new conversation clears the transcript, the votes and both
    of their storage entries and puts a new session id in storage, which
    [getSessionId] returns from then on; it does not touch the loading
    latch, the cooldown or a send in flight.  When that send settles,
    its message is appended to the cleared transcript: it is then the
    only message, and on success its [replyTo] names a user message that
    is no longer there. *)
Theorem new_conversation_keeps_send_in_flight config isEmbedded
    st env text st1 p newSessionId stored :
  sendMessage_begin config isEmbedded st env text = Awaiting st1 p ->
  newSessionId <> [] ->
  let pg :=
    handleNewConversation newSessionId
      {| app := st1; storedMessages := stored |} in
  (messages (app pg) = [] /\ feedback (app pg) = ∅ /\
   storedFeedback (app pg) = None /\ storedMessages pg = None /\
   forall fresh, getSessionId fresh (app pg) = (newSessionId, app pg)) /\
  (isLoading (app pg) = true /\ lastSendRef (app pg) = now env /\
   requests (app pg) = requests st1) /\
  (forall status data s,
     ok status = true -> data <> JNull ->
     messages (sendMessage_resume config isEmbedded p
                 (Response status (Some data)) s (app pg))
     = [{| id := stampId s; content := replyContent data; sender := Ai;
           timestamp := stampTime s;
           replyTo := Some (stampId (stamp env));
           isSystem := None; failedInput := None |}]) /\
  (forall outcome s,
     exists m,
       messages (sendMessage_resume config isEmbedded p outcome s (app pg))
       = [m]).
Proof.
  intros Hb Hn pg.
  apply sendMessage_begin_awaiting in Hb
    as (_ & _ & _ & _ & _ & Hu & _ & Hl & Hls & _).
  split; [|split; [|split]].
  - repeat split. intros fresh. unfold getSessionId. cbn.
    destruct newSessionId; [contradiction | reflexivity].
  - repeat split; assumption.
  - intros status data s Hok Hd.
    unfold sendMessage_resume, readReply. rewrite Hok. cbn [negb].
    assert (E : match data with
                | JNull => (inl TypeError : Exn + JsValue)
                | _ => inr (replyContent data)
                end = inr (replyContent data))
      by (destruct data; [contradiction|reflexivity..]).
    rewrite E. cbn [setIsLoading messages].
    rewrite (proj1 (postToParent_frame config isEmbedded _ _)).
    rewrite Hu. reflexivity.
  - intros outcome s. unfold sendMessage_resume.
    destruct (readReply outcome); cbn [setIsLoading messages].
    + eexists. reflexivity.
    + rewrite (proj1 (postToParent_frame config isEmbedded _ _)).
      eexists. reflexivity.
Qed.

Lemma new_conversation_keeps_send_in_flight_witness :
  exists st1 p,
    sendMessage_begin sampleConfig false initialState (sampleEnv 5000 "u1")
      (lit "Hello") = Awaiting st1 p /\
    List.map replyTo
      (messages
         (sendMessage_resume sampleConfig false p
            (Response 200 (Some (JObject [(lit "text", JString (lit "Hi!"))])))
            (sampleStamp "a1")
            (app (handleNewConversation (lit "session_2_xyz")
                    {| app := st1; storedMessages := Some (messages st1) |}))))
    = [Some (lit "u1")].
Proof.
  destruct (sendMessage_begin sampleConfig false initialState
              (sampleEnv 5000 "u1") (lit "Hello")) as [st1|st1 p] eqn:E;
    [vm_compute in E; discriminate|].
  exists st1, p. split; [reflexivity|].
  destruct (new_conversation_keeps_send_in_flight sampleConfig false
              initialState (sampleEnv 5000 "u1") (lit "Hello") st1 p
              (lit "session_2_xyz") (Some (messages st1)) E)
    as (_ & _ & H & _); [discriminate|].
  rewrite (H 200 (JObject [(lit "text", JString (lit "Hi!"))])
             (sampleStamp "a1") eq_refl); [reflexivity | discriminate].
Defined.

(** ** The typing notices *)

Lemma alternates_snoc (l : list bool) : forall e b,
  alternates e (l ++ [b])
  = alternates e l && Bool.eqb b (if Nat.odd (length l) then negb e else e).
Proof.
  induction l as [|x l IH]; intros e b.
  - simpl. rewrite andb_true_r. reflexivity.
  - rewrite <- app_comm_cons. cbn [alternates length].
    rewrite IH, Nat.odd_succ, <- Nat.negb_odd.
    rewrite <- andb_assoc. f_equal. f_equal.
    destruct (Nat.odd (length l)), e; reflexivity.
Qed.

Section Typing.

Variable config : Config.
Variable isEmbedded : bool.
Variable origin : jsstring.
Hypothesis origins_nodup : NoDup (allowedOrigins config).

Lemma posted_postToParent (data : ParentEvent) (st : AppState) :
  posted (postToParent config isEmbedded data st)
  = posted st ++
    (if isEmbedded then List.map (fun o => (o, data)) (allowedOrigins config)
     else []).
Proof.
  clear origins_nodup.
  unfold postToParent. destruct isEmbedded; [|rewrite app_nil_r; reflexivity].
  generalize st. induction (allowedOrigins config) as [|o os IH]; intros st0.
  - simpl. rewrite app_nil_r. reflexivity.
  - cbn [foldl List.map]. rewrite IH. cbn [postMessage posted].
    rewrite <- app_assoc. reflexivity.
Qed.

Lemma typingTo_posted (st st' : AppState) :
  posted st' = posted st -> typingTo origin st' = typingTo origin st.
Proof. unfold typingTo. intros ->. reflexivity. Qed.

Lemma typing_hits (b : bool) (os : list jsstring) :
  NoDup os ->
  omap (typingNotice origin) (List.map (fun o => (o, EvTyping b)) os)
  = if bool_decide (origin ∈ os) then [b] else [].
Proof.
  clear origins_nodup.
  induction 1 as [|o os Ho _ IH]; [reflexivity|].
  change (omap (typingNotice origin)
            (List.map (fun o => (o, EvTyping b)) (o :: os)))
    with (match (if jsstring_eqb o origin then Some b else None) with
          | Some y =>
              y :: omap (typingNotice origin)
                     (List.map (fun o => (o, EvTyping b)) os)
          | None =>
              omap (typingNotice origin)
                (List.map (fun o => (o, EvTyping b)) os)
          end).
  rewrite IH.
  destruct (jsstring_eqb o origin) eqn:E.
  - apply jsstring_eqb_eq in E. subst o.
    rewrite (bool_decide_eq_false_2 _ Ho).
    rewrite bool_decide_eq_true_2 by (left). reflexivity.
  - apply jsstring_eqb_neq in E.
    destruct (bool_decide (origin ∈ os)) eqn:Eo.
    + apply bool_decide_eq_true in Eo.
      rewrite bool_decide_eq_true_2 by (right; exact Eo). reflexivity.
    + apply bool_decide_eq_false in Eo.
      rewrite bool_decide_eq_false_2; [reflexivity|].
      intros [->|H]%elem_of_cons; [congruence | contradiction].
Qed.

Lemma typingTo_post_typing (b : bool) (st : AppState) :
  typingTo origin (postToParent config isEmbedded (EvTyping b) st)
  = typingTo origin st ++
    (if reaches config isEmbedded origin then [b] else []).
Proof.
  unfold typingTo, reaches. rewrite posted_postToParent, omap_app.
  destruct isEmbedded; [|reflexivity]. cbn [andb].
  rewrite (typing_hits b _ origins_nodup). reflexivity.
Qed.

Lemma typingTo_post_other (data : ParentEvent) (st : AppState) :
  (forall b, data <> EvTyping b) ->
  typingTo origin (postToParent config isEmbedded data st) = typingTo origin st.
Proof.
  clear origins_nodup.
  intros Hd. unfold typingTo. rewrite posted_postToParent, omap_app.
  destruct isEmbedded; [|apply app_nil_r].
  induction (allowedOrigins config) as [|o os IH]; [apply app_nil_r|].
  cbn [List.map omap]. destruct data; try exact IH.
  exfalso. eapply Hd. reflexivity.
Qed.

Lemma sameTyping_refl st : sameTyping origin st st.
Proof. repeat split. Qed.

Lemma sameTyping_trans a b c :
  sameTyping origin a b -> sameTyping origin b c -> sameTyping origin a c.
Proof.
  intros (H1 & H2 & H3) (H4 & H5 & H6). repeat split; congruence.
Qed.

Lemma sameTyping_post_other (data : ParentEvent) (st : AppState) :
  (forall b, data <> EvTyping b) ->
  sameTyping origin st (postToParent config isEmbedded data st).
Proof.
  intros Hd. destruct (postToParent_frame config isEmbedded data st)
    as (_ & _ & _ & _ & _ & _ & H1 & H2 & _).
  split; [exact H1|]. split; [exact H2|]. apply typingTo_post_other, Hd.
Qed.

Lemma sameTyping_getSessionId (fresh : jsstring) (st : AppState) :
  sameTyping origin st (snd (getSessionId fresh st)).
Proof.
  unfold getSessionId. destruct (orNull (storedSessionId st)); repeat split.
Qed.

Lemma typingInv_same st st' :
  sameTyping origin st st' ->
  typingInv config isEmbedded origin st -> typingInv config isEmbedded origin st'.
Proof.
  intros (H1 & H2 & H3). unfold typingInv. rewrite H1, H2, H3. tauto.
Qed.

(** Sending takes the typing flag down, with a notice when it was up. *)
Lemma typingInv_clear st :
  typingInv config isEmbedded origin st ->
  typingInv config isEmbedded origin
    (if isTypingRef st then
       postToParent config isEmbedded (EvTyping false) (setTyping false false st)
     else setTyping false false st).
Proof.
  intros (Ha & Ht & Hr). unfold typingInv.
  destruct (isTypingRef st) eqn:Ety.
  - destruct (postToParent_frame config isEmbedded (EvTyping false)
                (setTyping false false st))
      as (_ & _ & _ & _ & _ & _ & -> & -> & _).
    rewrite typingTo_post_typing. cbn [isTypingRef typingTimeoutRef].
    change (typingTo origin (setTyping false false st)) with (typingTo origin st).
    destruct (reaches config isEmbedded origin).
    + rewrite alternates_snoc, Ha, <- Hr, length_app, Nat.add_1_r,
        Nat.odd_succ, <- Nat.negb_odd, <- Hr.
      repeat split. discriminate.
    + rewrite app_nil_r. repeat split; [exact Ha | discriminate | exact Hr].
  - cbn [isTypingRef typingTimeoutRef].
    change (typingTo origin (setTyping false false st)) with (typingTo origin st).
    repeat split; [exact Ha | discriminate |].
    destruct (reaches config isEmbedded origin); [|exact Hr].
    rewrite <- Hr. reflexivity.
Qed.

Lemma typingInv_sendMessage_begin st env text :
  typingInv config isEmbedded origin st ->
  typingInv config isEmbedded origin
    (stateOf (sendMessage_begin config isEmbedded st env text)).
Proof.
  intros Hinv. unfold sendMessage_begin.
  destruct (isLoading st); [exact Hinv|].
  destruct (rateGate _ _); [|exact Hinv].
  destruct (negb (isNonEmpty (webhookUrl config)));
    [apply (typingInv_same st); [repeat split | exact Hinv]|].
  destruct (negb (valid (validateInput text)));
    [apply (typingInv_same st); [repeat split | exact Hinv]|].
  match goal with
  | |- context [getSessionId ?f ?s] =>
      pose proof (sameTyping_getSessionId f s) as Hs;
      assert (Hc : typingInv config isEmbedded origin s);
      [|destruct (getSessionId f s) as [sid st'] eqn:Esid]
  end.
  - match goal with
    | |- typingInv _ _ _ (if isTypingRef ?x then _ else _) =>
        apply (typingInv_clear x)
    end.
    apply (typingInv_same st); [repeat split | exact Hinv].
  - cbn [snd] in Hs. cbn [stateOf].
    eapply typingInv_same; [|exact Hc].
    eapply sameTyping_trans; [exact Hs | repeat split].
Qed.

Lemma typingInv_sendMessage_resume p outcome s st :
  typingInv config isEmbedded origin st ->
  typingInv config isEmbedded origin
    (sendMessage_resume config isEmbedded p outcome s st).
Proof.
  apply typingInv_same. unfold sendMessage_resume.
  destruct (readReply outcome); [repeat split|].
  eapply sameTyping_trans;
    [|apply (sameTyping_trans _ _ _
               (sameTyping_post_other (EvMessageSent (userMessage p)) _
                  ltac:(discriminate)));
      repeat split].
  repeat split.
Qed.

Lemma typingInv_handleFeedback_begin st env messageId type :
  typingInv config isEmbedded origin st ->
  typingInv config isEmbedded origin
    (stateOf (handleFeedback_begin config isEmbedded st env messageId type)).
Proof.
  intros Hinv. unfold handleFeedback_begin.
  destruct (rateGate _ _); [|exact Hinv].
  match goal with
  | |- context [getSessionId ?f ?s] =>
      pose proof (sameTyping_getSessionId f s) as Hs;
      assert (Hc : sameTyping origin st s);
      [|destruct (getSessionId f s) as [sid st'] eqn:Esid]
  end.
  - eapply sameTyping_trans;
      [|apply (sameTyping_post_other (EvFeedback messageId type) _
                 ltac:(discriminate))].
    repeat split.
  - cbn [snd] in Hs. cbn [stateOf].
    eapply typingInv_same; [|exact Hinv].
    eapply sameTyping_trans; [exact Hc|].
    eapply sameTyping_trans; [exact Hs | repeat split].
Qed.

Lemma typingInv_notifyTyping st :
  typingInv config isEmbedded origin st ->
  typingInv config isEmbedded origin (notifyTyping config isEmbedded st).
Proof.
  intros (Ha & Ht & Hr). unfold notifyTyping, typingInv.
  destruct (isTypingRef st) eqn:Ety; cbn [negb].
  - cbn [isTypingRef typingTimeoutRef]. rewrite Ety.
    change (typingTo origin (setTyping true true st)) with (typingTo origin st).
    repeat split; [exact Ha | exact Hr].
  - destruct (postToParent_frame config isEmbedded (EvTyping true)
                (setTyping true (typingTimeoutRef st) st))
      as (_ & _ & _ & _ & _ & _ & Hty & _).
    cbn [isTypingRef typingTimeoutRef]. rewrite Hty. cbn [isTypingRef setTyping].
    match goal with
    | |- context [typingTo origin (setTyping true true ?x)] =>
        change (typingTo origin (setTyping true true x)) with (typingTo origin x)
    end.
    rewrite typingTo_post_typing.
    change (typingTo origin (setTyping true (typingTimeoutRef st) st))
      with (typingTo origin st).
    destruct (reaches config isEmbedded origin).
    + rewrite alternates_snoc, Ha, <- Hr, length_app, Nat.add_1_r,
        Nat.odd_succ, <- Nat.negb_odd, <- Hr.
      repeat split.
    + rewrite app_nil_r. repeat split; [exact Ha | exact Hr].
Qed.

Lemma typingInv_typingTimerFires st :
  typingInv config isEmbedded origin st ->
  typingInv config isEmbedded origin (typingTimerFires config isEmbedded st).
Proof.
  intros Hinv. unfold typingTimerFires.
  destruct (typingTimeoutRef st) eqn:Et; [|exact Hinv].
  pose proof (typingInv_clear st Hinv) as Hc.
  destruct Hinv as (_ & Ht & _). rewrite (Ht Et) in Hc. exact Hc.
Qed.

Lemma typingInv_act (a : Action) (pg : Page) :
  typingInv config isEmbedded origin (app pg) ->
  typingInv config isEmbedded origin (app (act config isEmbedded a pg)).
Proof.
  intros Hinv. destruct a; cbn [act onApp app persistMessages saveMessages].
  - unfold handleChange. apply typingInv_notifyTyping.
    apply (typingInv_same (app pg)); [repeat split | exact Hinv].
  - apply typingInv_typingTimerFires, Hinv.
  - apply typingInv_sendMessage_begin, Hinv.
  - unfold handleSend. destruct (_ && _); [|exact Hinv].
    apply typingInv_sendMessage_begin, Hinv.
  - apply typingInv_sendMessage_resume, Hinv.
  - unfold handleRetry. apply typingInv_sendMessage_begin.
    apply (typingInv_same (app pg)); [repeat split | exact Hinv].
  - unfold clickFeedback.
    destruct (feedback (app pg) !! messageId) as [[]|], type;
      try exact Hinv; apply typingInv_handleFeedback_begin, Hinv.
  - apply (typingInv_same (app pg)); [|exact Hinv].
    unfold handleFeedback_resume. destruct type; repeat split.
  - apply (typingInv_same (app pg)); [repeat split | exact Hinv].
  - exact Hinv.
  - apply (typingInv_same (app pg)); [|exact Hinv].
    apply sameTyping_post_other. discriminate.
Qed.

(** X13. The typing notices take turns.  Start from a page that has
    posted nothing, with the typing flag down and no timer pending, and
    let anything happen to it in any order: input changes, the typing
    timer, sends and their outcomes, retries, votes, new conversations,
    the close button.  Then, when the allowed origins hold no origin
    twice, the typing notices posted to any one origin read true,
    false, true, false and so on: typing:true is never posted twice in
    a row, and typing:false never without a typing:true before it. *)
Theorem typing_notices_alternate (actions : list Action) (pg : Page) :
  posted (app pg) = [] ->
  isTypingRef (app pg) = false ->
  typingTimeoutRef (app pg) = false ->
  alternates true
    (typingTo origin (app (runActions config isEmbedded actions pg))) = true.
Proof.
  intros Hp Hty Hti.
  assert (Hinv : typingInv config isEmbedded origin (app pg)).
  { unfold typingInv, typingTo. rewrite Hp, Hty, Hti. cbn.
    repeat split; [discriminate|].
    destruct (reaches config isEmbedded origin); reflexivity. }
  clear Hp Hty Hti. revert pg Hinv. unfold runActions.
  induction actions as [|a actions IH]; intros pg Hinv.
  - exact (proj1 Hinv).
  - cbn [foldl]. apply IH, typingInv_act, Hinv.
Qed.

End Typing.

Lemma typing_notices_alternate_witness :
  alternates true
    (typingTo (lit "https://axmed.com")
       (app (runActions sampleConfig true
               [ Change (lit "H"); Change (lit "Hi");
                 Send (sampleEnv 5000 "u1") (lit "Hi");
                 Change (lit "a"); TypingTimer; TypingTimer;
                 NewConversation (lit "session_2_xyz"); Change (lit "b") ]
               initialPage))) = true.
Proof.
  apply typing_notices_alternate; try reflexivity.
  apply (bool_decide_unpack _). vm_compute. exact I.
Defined.

Example typing_notices_sample :
  typingTo (lit "https://axmed.com")
    (app (runActions sampleConfig true
            [ Change (lit "H"); Change (lit "Hi");
              Send (sampleEnv 5000 "u1") (lit "Hi");
              Change (lit "a"); TypingTimer; TypingTimer;
              NewConversation (lit "session_2_xyz"); Change (lit "b") ]
            initialPage))
  = [true; false; true; false; true].
Proof. vm_compute. reflexivity. Qed.

(** ** Configuration: the lists *)

Lemma getConfig_suggestions (params : URLSearchParams) (env : option jsstring) :
  suggestions (getConfig params env) =
  match get params (lit "suggestions") with
  | Some s =>
      if jsstring_eqb s (lit "false") then None
      else if isNonEmpty s then Some (splitList s)
      else Some DEFAULT_SUGGESTIONS
  | None => Some DEFAULT_SUGGESTIONS
  end.
Proof. reflexivity. Qed.

Lemma getConfig_allowedOrigins (params : URLSearchParams) (env : option jsstring) :
  allowedOrigins (getConfig params env) =
  match orNull (get params (lit "allowedOrigins")) with
  | Some s => splitList s
  | None => DEFAULT_ALLOWED_ORIGINS
  end.
Proof. reflexivity. Qed.

Lemma trim_idempotent (s : jsstring) : trim (trim s) = trim s.
Proof. apply trim_fixed, trim_trimmed. Qed.

Lemma splitList_entries (s : jsstring) :
  Forall (fun q => q <> [] /\ trim q = q) (splitList s).
Proof.
  unfold splitList. induction (split 44 s) as [|p ps IH]; [constructor|].
  cbn [List.map List.filter].
  destruct (trim p) as [|c t] eqn:E; cbn [isNonEmpty]; [exact IH|].
  constructor; [|exact IH]. split; [discriminate|].
  rewrite <- E. apply trim_idempotent.
Qed.

(** X14. The lists of the configuration hold no blank entry: every
    suggestion and every allowed origin that [getConfig] resolves,
    custom or built in, is non-empty and has no white space at either
    end. *)
Theorem getConfig_list_entries (params : URLSearchParams)
    (env : option jsstring) :
  (forall l, suggestions (getConfig params env) = Some l ->
     Forall (fun q => q <> [] /\ trim q = q) l) /\
  Forall (fun q => q <> [] /\ trim q = q)
    (allowedOrigins (getConfig params env)).
Proof.
  assert (Hd : Forall (fun q => q <> [] /\ trim q = q) DEFAULT_SUGGESTIONS)
    by (repeat constructor; try discriminate; vm_compute; reflexivity).
  assert (Ho : Forall (fun q => q <> [] /\ trim q = q) DEFAULT_ALLOWED_ORIGINS)
    by (repeat constructor; try discriminate; vm_compute; reflexivity).
  split.
  - intros l. rewrite getConfig_suggestions.
    destruct (get params (lit "suggestions")) as [s|]; [|intros [= <-]; exact Hd].
    destruct (jsstring_eqb s (lit "false")); [discriminate|].
    destruct (isNonEmpty s); intros [= <-]; [apply splitList_entries | exact Hd].
  - rewrite getConfig_allowedOrigins.
    destruct (orNull _); [apply splitList_entries | exact Ho].
Qed.

Lemma getConfig_list_entries_witness :
  suggestions (getConfig [(lit "suggestions", lit " Q1 , ,Q2,")] None)
  = Some [lit "Q1"; lit "Q2"] /\
  Forall (fun q => q <> [] /\ trim q = q) [lit "Q1"; lit "Q2"].
Proof.
  split; [reflexivity|].
  apply (proj1 (getConfig_list_entries
                  [(lit "suggestions", lit " Q1 , ,Q2,")] None)).
  reflexivity.
Defined.

Lemma split_nonempty (sep : N) (s : jsstring) : split sep s <> [].
Proof.
  destruct s as [|c s]; simpl; [discriminate|].
  destruct (c =? sep)%N; [discriminate|]. destruct (split sep s); discriminate.
Qed.

Lemma split_plain (sep : N) (p : jsstring) :
  Forall (fun c => c <> sep) p -> split sep p = [p].
Proof.
  induction 1 as [|c p Hc _ IH]; [reflexivity|]. simpl.
  apply N.eqb_neq in Hc. rewrite Hc, IH. reflexivity.
Qed.

Lemma split_plain_sep (sep : N) (p rest : jsstring) :
  Forall (fun c => c <> sep) p ->
  split sep (p ++ sep :: rest) = p :: split sep rest.
Proof.
  induction 1 as [|c p Hc _ IH]; simpl.
  - rewrite N.eqb_refl. reflexivity.
  - apply N.eqb_neq in Hc. rewrite Hc, IH. reflexivity.
Qed.

Lemma split_joinComma (pieces : list jsstring) :
  pieces <> [] ->
  Forall (fun q => Forall (fun c => c <> 44%N) q) pieces ->
  split 44 (joinComma pieces) = pieces.
Proof.
  intros Hne H. induction H as [|p ps Hp Hps IH]; [contradiction|].
  destruct ps as [|p' ps].
  - simpl. apply split_plain, Hp.
  - change (joinComma (p :: p' :: ps)) with (p ++ 44%N :: joinComma (p' :: ps)).
    rewrite split_plain_sep by exact Hp. rewrite IH by discriminate.
    reflexivity.
Qed.

Lemma joinComma_nonempty (pieces : list jsstring) :
  pieces <> [] -> Forall (fun q => q <> []) pieces ->
  isNonEmpty (joinComma pieces) = true.
Proof.
  intros Hne H. destruct H as [|p ps Hp _]; [contradiction|].
  destruct p as [|c p]; [contradiction|]. destruct ps; reflexivity.
Qed.

Lemma splitList_joinComma (pieces : list jsstring) :
  pieces <> [] ->
  Forall (fun q => q <> [] /\ trim q = q /\ Forall (fun c => c <> 44%N) q)
    pieces ->
  splitList (joinComma pieces) = pieces.
Proof.
  intros Hne H. unfold splitList. rewrite split_joinComma.
  - induction H as [|p ps (Hp & Ht & _) _ IH]; [reflexivity|].
    cbn [List.map List.filter]. rewrite Ht.
    destruct p; [contradiction|]. cbn [isNonEmpty].
    destruct ps as [|p' ps]; [reflexivity|].
    rewrite IH by discriminate. reflexivity.
  - exact Hne.
  - eapply Forall_impl; [exact H|]. intros q (_ & _ & Hq). exact Hq.
Qed.

(** X15. The suggestions parameter reads back what was written: a
    comma-joined list of questions, each non-empty, free of commas and
    without white space at its ends, resolves to exactly that list,
    unless the whole parameter is the word false, which switches the
    suggestions off; an absent or empty parameter gives the built-in
    list. *)
Theorem suggestions_round_trip (params : URLSearchParams)
    (env : option jsstring) :
  (forall pieces,
     get params (lit "suggestions") = Some (joinComma pieces) ->
     pieces <> [] ->
     Forall (fun q => q <> [] /\ trim q = q /\ Forall (fun c => c <> 44%N) q)
       pieces ->
     joinComma pieces <> lit "false" ->
     suggestions (getConfig params env) = Some pieces) /\
  (get params (lit "suggestions") = Some (lit "false") ->
   suggestions (getConfig params env) = None) /\
  (get params (lit "suggestions") = None \/
   get params (lit "suggestions") = Some [] ->
   suggestions (getConfig params env) = Some DEFAULT_SUGGESTIONS).
Proof.
  rewrite getConfig_suggestions. split; [|split].
  - intros pieces -> Hne H Hf.
    apply jsstring_eqb_neq in Hf. rewrite Hf.
    rewrite joinComma_nonempty.
    + rewrite splitList_joinComma by assumption. reflexivity.
    + exact Hne.
    + eapply Forall_impl; [exact H|]. intros q (Hq & _). exact Hq.
  - intros ->. reflexivity.
  - intros [-> | ->]; reflexivity.
Qed.

Lemma suggestions_round_trip_witness :
  suggestions
    (getConfig [(lit "suggestions", lit "What is it?,How much is it?")] None)
  = Some [lit "What is it?"; lit "How much is it?"].
Proof.
  apply (proj1 (suggestions_round_trip
                  [(lit "suggestions", lit "What is it?,How much is it?")] None)
           [lit "What is it?"; lit "How much is it?"]).
  - reflexivity.
  - discriminate.
  - repeat constructor; try discriminate; vm_compute; reflexivity.
  - discriminate.
Defined.

Lemma split_blank (s : jsstring) :
  Forall (fun c => c = 44%N \/ isWhiteSpace c = true) s ->
  Forall allWhiteSpace (split 44 s).
Proof.
  induction 1 as [|c s Hc _ IH]; [repeat constructor|]. simpl.
  destruct (c =? 44)%N eqn:E.
  - constructor; [constructor | exact IH].
  - destruct Hc as [-> | Hc]; [discriminate|].
    destruct (split 44 s) as [|p ps] eqn:Es; [repeat constructor; exact Hc|].
    inversion IH; subst. constructor; [constructor; assumption | assumption].
Qed.

Lemma splitList_blank (s : jsstring) :
  Forall (fun c => c = 44%N \/ isWhiteSpace c = true) s -> splitList s = [].
Proof.
  intros H. apply split_blank in H. unfold splitList.
  induction H as [|p ps Hp _ IH]; [reflexivity|].
  cbn [List.map List.filter]. unfold trim.
  rewrite (trimStart_allWhiteSpace p Hp). exact IH.
Qed.

(** X16. The allowed origins can come out empty.  An absent or empty
    [allowedOrigins] parameter gives the two built-in origins, but a
    non-empty one made of commas and white space only gives the empty
    list; the widget then posts nothing to the embedding page, whatever
    the event, and ignores every message from it. *)
Theorem allowedOrigins_may_be_empty (params : URLSearchParams)
    (env : option jsstring) :
  (get params (lit "allowedOrigins") = None \/
   get params (lit "allowedOrigins") = Some [] ->
   allowedOrigins (getConfig params env) = DEFAULT_ALLOWED_ORIGINS) /\
  (forall s,
     get params (lit "allowedOrigins") = Some s -> s <> [] ->
     Forall (fun c => c = 44%N \/ isWhiteSpace c = true) s ->
     allowedOrigins (getConfig params env) = [] /\
     (forall isEmbedded data st,
        postToParent (getConfig params env) isEmbedded data st = st) /\
     (forall origin action,
        handleMessage (getConfig params env) origin action = false)).
Proof.
  split.
  - rewrite getConfig_allowedOrigins. intros [-> | ->]; reflexivity.
  - intros s Hs Hne Hblank.
    assert (E : allowedOrigins (getConfig params env) = []).
    { rewrite getConfig_allowedOrigins, Hs.
      destruct s; [contradiction|]. cbn [orNull isNonEmpty].
      apply splitList_blank, Hblank. }
    split; [exact E|]. split.
    + intros isEmbedded data st. unfold postToParent. rewrite E.
      destruct isEmbedded; reflexivity.
    + intros origin action. unfold handleMessage. rewrite E. reflexivity.
Qed.

Lemma allowedOrigins_may_be_empty_witness :
  allowedOrigins (getConfig [(lit "allowedOrigins", lit " , ")] None) = [] /\
  handleMessage (getConfig [(lit "allowedOrigins", lit " , ")] None)
    (lit "https://axmed.com") (Some (lit "open")) = false.
Proof.
  destruct (proj2 (allowedOrigins_may_be_empty
                     [(lit "allowedOrigins", lit " , ")] None)
              (lit " , ") eq_refl) as (H1 & _ & H3).
  - discriminate.
  - repeat first
      [ apply List.Forall_nil
      | apply List.Forall_cons;
        [first [left; reflexivity | right; reflexivity]|] ].
  - split; [exact H1 | apply H3].
Defined.

(** ** Numbers *)

Lemma roundBinary64_exact (n : Z) :
  0 < n < 2 ^ 53 -> roundBinary64 n = n.
Proof.
  intros [H0 H]. unfold roundBinary64.
  apply Z.log2_lt_pow2 in H; [|exact H0].
  destruct (Z.leb_spec (Z.log2 n + 1) 53); [reflexivity | lia].
Qed.

(** Below 2^53 the Number is the integer itself. *)
Lemma numberOf_exact (negative : bool) (n : Z) :
  0 <= n < 2 ^ 53 ->
  numberOf negative n =
  if n =? 0 then (if negative then PNegZero else PInt 0)
  else PInt (if negative then - n else n).
Proof.
  intros [H0 H]. unfold numberOf.
  destruct (Z.eqb_spec n 0); [reflexivity|].
  rewrite roundBinary64_exact by lia.
  assert (Hp : 2 ^ 53 <= 2 ^ 1024) by (apply Z.pow_le_mono_r; lia).
  destruct (Z.leb_spec (2 ^ 1024) n); [lia | reflexivity].
Qed.

Lemma numberOf_not_NaN (negative : bool) (n : Z) : numberOf negative n <> PNaN.
Proof.
  unfold numberOf. destruct (n =? 0); [destruct negative; discriminate|].
  destruct (2 ^ 1024 <=? roundBinary64 n); discriminate.
Qed.

Example roundBinary64_tie_to_even :
  roundBinary64 9007199254740993 = 9007199254740992 /\
  roundBinary64 9007199254740995 = 9007199254740996 /\
  numberOf false (10 ^ 400) = PInfinity false /\
  numberOf true 0 = PNegZero.
Proof. vm_compute. repeat split. Qed.

(** The rounding agrees with [binary_normalize] of the standard library
    at 53 bits of precision and exponents up to 1024, here at the
    values where it matters: below and above 2^53, at ties, at the
    largest Number and at the first integer that rounds to infinity. *)
Example numberOf_agrees_with_binary_normalize :
  Forall (fun n => ofSpecFloat (binary_normalize 53 1024 n 0 false)
                   = numberOf false n)
    [ 0; 1; 255; 2 ^ 53 - 1; 2 ^ 53; 2 ^ 53 + 1; 2 ^ 53 + 2; 2 ^ 53 + 3;
      2 ^ 54 + 2; 2 ^ 54 + 6; 12345678901234567890123;
      2 ^ 1024 - 2 ^ 971; 2 ^ 1024 - 2 ^ 971 + 2 ^ 970 - 1;
      2 ^ 1024 - 2 ^ 971 + 2 ^ 970; 2 ^ 1024; 10 ^ 400 ].
Proof. repeat constructor; vm_compute; reflexivity. Qed.

Example numberOf_agrees_on_roundingSamples :
  forallb
    (fun n =>
       ParsedInt_eqb (ofSpecFloat (binary_normalize 53 1024 n 0 false))
         (numberOf false n))
    (roundingSamples
       (map Z.of_nat (seq 1 64)
        ++ map (fun k => 64 + 31 * Z.of_nat k) (seq 0 30)
        ++ [968; 969; 970; 971; 972; 973]))
  = true.
Proof. vm_compute. reflexivity. Qed.

(** ** Colours *)

Lemma ascii_graphic_not_space (c : N) :
  (33 <= c <= 126)%N -> isWhiteSpace c = false.
Proof.
  intros H. unfold isWhiteSpace.
  repeat match goal with
         | |- context [(?a <=? ?b)%N] =>
             destruct (N.leb_spec a b); try lia
         | |- context [(?a =? ?b)%N] =>
             destruct (N.eqb_spec a b); try lia
         end;
    try reflexivity.
Qed.

Lemma hexDigit_range (c : N) (d : Z) :
  hexDigit c = Some d ->
  0 <= d < 16 /\
  ((48 <= c <= 57)%N \/ (97 <= c <= 102)%N \/ (65 <= c <= 70)%N).
Proof.
  unfold hexDigit.
  destruct (N.leb_spec 48 c), (N.leb_spec c 57); cbn [andb];
    try (intros [= <-]; split; lia);
    destruct (N.leb_spec 97 c), (N.leb_spec c 102); cbn [andb];
    try (intros [= <-]; split; lia);
    destruct (N.leb_spec 65 c), (N.leb_spec c 70); cbn [andb];
    try (intros [= <-]; split; lia); discriminate.
Qed.

Lemma hexDigit_facts (c : N) (d : Z) :
  hexDigit c = Some d ->
  0 <= d < 16 /\ isWhiteSpace c = false /\
  (c =? 45)%N = false /\ (c =? 43)%N = false /\
  (c =? 120)%N = false /\ (c =? 88)%N = false /\ (c =? 35)%N = false.
Proof.
  intros H. destruct (hexDigit_range c d H) as [Hd Hc].
  split; [exact Hd|]. split; [apply ascii_graphic_not_space; lia|].
  repeat split; apply N.eqb_neq; lia.
Qed.

Lemma parseInt16_pair (c1 c2 : N) (d1 d2 : Z) :
  hexDigit c1 = Some d1 -> hexDigit c2 = Some d2 ->
  parseInt16 [c1; c2] = PInt (16 * d1 + d2).
Proof.
  intros H1 H2.
  destruct (hexDigit_facts _ _ H1) as (_ & Hw & H45 & H43 & _).
  destruct (hexDigit_facts _ _ H2) as (_ & _ & _ & _ & H120 & H88 & _).
  destruct (hexDigit_facts _ _ H1) as (Hd1 & _).
  destruct (hexDigit_facts _ _ H2) as (Hd2 & _).
  unfold parseInt16. cbn [trimStart]. rewrite Hw, H45, H43, H120, H88.
  rewrite andb_false_r. cbn [readHex]. rewrite H1, H2.
  replace (16 * (16 * 0 + d1) + d2) with (16 * d1 + d2) by lia.
  assert (Hp : 2 ^ 8 <= 2 ^ 53) by (apply Z.pow_le_mono_r; lia).
  change (2 ^ 8) with 256 in Hp.
  rewrite numberOf_exact by lia.
  destruct (Z.eqb_spec (16 * d1 + d2) 0) as [E|]; [rewrite E|]; reflexivity.
Qed.

Lemma removeFirst_absent (c : N) (s : jsstring) :
  Forall (fun ch => (ch =? c)%N = false) s -> removeFirst c s = s.
Proof.
  induction 1 as [|ch s Hc _ IH]; [reflexivity|]. simpl. rewrite Hc, IH.
  reflexivity.
Qed.

(** X17. [hexToRgb] on a colour of six hexadecimal digits, with or
    without the leading [#], gives for each pair of digits the number
    16 * high + low, which lies between 0 and 255. *)
Theorem hexToRgb_six_digits (r1 r2 g1 g2 b1 b2 : N) (x1 x2 y1 y2 z1 z2 : Z) :
  hexDigit r1 = Some x1 -> hexDigit r2 = Some x2 ->
  hexDigit g1 = Some y1 -> hexDigit g2 = Some y2 ->
  hexDigit b1 = Some z1 -> hexDigit b2 = Some z2 ->
  hexToRgb (35%N :: [r1; r2; g1; g2; b1; b2])
  = (PInt (16 * x1 + x2), PInt (16 * y1 + y2), PInt (16 * z1 + z2)) /\
  hexToRgb [r1; r2; g1; g2; b1; b2]
  = (PInt (16 * x1 + x2), PInt (16 * y1 + y2), PInt (16 * z1 + z2)) /\
  0 <= 16 * x1 + x2 <= 255 /\ 0 <= 16 * y1 + y2 <= 255 /\
  0 <= 16 * z1 + z2 <= 255.
Proof.
  intros Hr1 Hr2 Hg1 Hg2 Hb1 Hb2.
  pose proof (hexDigit_facts _ _ Hr1) as (? & _ & _ & _ & _ & _ & E1).
  pose proof (hexDigit_facts _ _ Hr2) as (? & _ & _ & _ & _ & _ & E2).
  pose proof (hexDigit_facts _ _ Hg1) as (? & _ & _ & _ & _ & _ & E3).
  pose proof (hexDigit_facts _ _ Hg2) as (? & _ & _ & _ & _ & _ & E4).
  pose proof (hexDigit_facts _ _ Hb1) as (? & _ & _ & _ & _ & _ & E5).
  pose proof (hexDigit_facts _ _ Hb2) as (? & _ & _ & _ & _ & _ & E6).
  assert (R2 : removeFirst 35 [r1; r2; g1; g2; b1; b2]
               = [r1; r2; g1; g2; b1; b2])
    by (apply removeFirst_absent; repeat constructor; assumption).
  assert (R1 : removeFirst 35 (35%N :: [r1; r2; g1; g2; b1; b2])
               = [r1; r2; g1; g2; b1; b2]) by reflexivity.
  unfold hexToRgb. rewrite R1, R2.
  unfold substring. cbn [drop take Nat.sub].
  rewrite (parseInt16_pair _ _ _ _ Hr1 Hr2), (parseInt16_pair _ _ _ _ Hg1 Hg2),
    (parseInt16_pair _ _ _ _ Hb1 Hb2).
  repeat split; lia.
Qed.

Lemma hexToRgb_six_digits_witness :
  hexToRgb (lit "#261C7A") = (PInt 38, PInt 28, PInt 122).
Proof.
  apply (proj1 (hexToRgb_six_digits 50 54 49 67 55 65 2 6 1 12 7 10
                  eq_refl eq_refl eq_refl eq_refl eq_refl eq_refl)).
Defined.

(** X18. [hexToRgb] does not know the short form of a colour: when at
    most four code units are left after the first [#] is taken out, as
    for [#abc], the blue component is NaN. *)
Theorem hexToRgb_short_is_NaN (hex : jsstring) :
  (length (removeFirst 35 hex) <= 4)%nat ->
  snd (hexToRgb hex) = PNaN.
Proof.
  intros H. unfold hexToRgb, substring. cbn [snd].
  rewrite drop_ge by exact H. reflexivity.
Qed.

Lemma hexToRgb_short_is_NaN_witness :
  hexToRgb (lit "#abc") = (PInt 171, PInt 12, PNaN).
Proof.
  pose proof (hexToRgb_short_is_NaN (lit "#abc")) as H.
  destruct (hexToRgb (lit "#abc")) as [[r g] b] eqn:E.
  cbn [snd] in H. rewrite H by (vm_compute; apply Nat.leb_le; reflexivity).
  vm_compute in E. injection E as <- <- _. reflexivity.
Defined.

(** ** The retry update, in general *)

Lemma findIndex_lt {A} (p : A -> bool) (l : list A) :
  findIndex p l < Z.of_nat (length l) \/ l = [].
Proof.
  induction l as [|x l IH]; [right; reflexivity|]. left. simpl.
  destruct (p x); [lia|].
  destruct (Z.ltb_spec (findIndex p l) 0); [lia|].
  destruct IH as [IH | ->]; [lia | simpl in *; lia].
Qed.

(** X19. Whatever the transcript and the id, the retry update removes
    either nothing or exactly two messages, and what it keeps is kept
    unchanged and in order. *)
Theorem removeRetryPair_removes_two_or_none (errorMsgId : jsstring)
    (prev : list ChatMessage) :
  removeRetryPair errorMsgId prev `sublist_of` prev /\
  (removeRetryPair errorMsgId prev = prev \/
   length prev = (length (removeRetryPair errorMsgId prev) + 2)%nat).
Proof.
  unfold removeRetryPair.
  set (i := findIndex (fun m => jsstring_eqb (id m) errorMsgId) prev).
  destruct (Z.ltb_spec i 1) as [H | H]; [split; [reflexivity | left; reflexivity]|].
  assert (Hlt : i < Z.of_nat (length prev)).
  { destruct (findIndex_lt (fun m => jsstring_eqb (id m) errorMsgId) prev)
      as [Hl | ->]; [exact Hl | simpl in *; lia]. }
  replace (Z.to_nat (i + 1)) with (Z.to_nat (i - 1) + 2)%nat by lia.
  split.
  - rewrite <- drop_drop.
    rewrite <- (take_drop (Z.to_nat (i - 1)) prev) at 3.
    apply sublist_app; [reflexivity | apply sublist_drop].
  - right. rewrite length_app, length_take, length_drop. lia.
Qed.

Lemma validateInput_sanitized_sublist_witness :
  sanitized (validateInput (lit " a<script>x</script>b "))
    `sublist_of` lit " a<script>x</script>b " /\
  (length (sanitized (validateInput (lit " a<script>x</script>b "))) <= 500)%nat.
Proof.
  destruct (validateInput_sanitized_sublist (lit " a<script>x</script>b "))
    as [H1 H2].
  split; [exact H1 | apply H2; reflexivity].
Defined.

(** ** Configuration: the corner radius *)

Lemma isDigit_facts (c : N) :
  isDigit c = true ->
  isWhiteSpace c = false /\ (c =? 45)%N = false /\ (c =? 43)%N = false.
Proof.
  unfold isDigit. intros H. apply andb_true_iff in H as [H1 H2].
  apply N.leb_le in H1. apply N.leb_le in H2.
  split; [apply ascii_graphic_not_space; lia|].
  split; apply N.eqb_neq; lia.
Qed.

Lemma readDigits_none (acc : Z) (s : jsstring) :
  startsWithDigit s = false -> readDigits false acc s = None.
Proof.
  destruct s as [|c s]; simpl; [reflexivity|]. intros ->. reflexivity.
Qed.

Lemma readDigits_started (s : jsstring) : forall acc,
  exists n, readDigits true acc s = Some n.
Proof.
  induction s as [|c s IH]; intros acc; simpl; [eauto|].
  destruct (isDigit c); [apply IH | eauto].
Qed.

Lemma readDigits_some (acc : Z) (s : jsstring) :
  startsWithDigit s = true -> exists n, readDigits false acc s = Some n.
Proof.
  destruct s as [|c s]; simpl; [discriminate|]. intros ->.
  apply readDigits_started.
Qed.

Lemma readDigits_decimal (ds rest : jsstring) :
  Forall (fun c => isDigit c = true) ds -> startsWithDigit rest = false ->
  forall started acc,
    started = true \/ ds <> [] ->
    readDigits started acc (ds ++ rest) = Some (decimal acc ds).
Proof.
  intros Hds Hrest. induction Hds as [|c ds Hc _ IH]; intros started acc Hs.
  - destruct Hs as [-> | Hs]; [|contradiction].
    destruct rest as [|c rest]; simpl in *; [reflexivity|].
    rewrite Hrest. reflexivity.
  - simpl. rewrite Hc. apply IH. left. reflexivity.
Qed.

(** The digits at the head of a text, and what follows them. *)
Lemma digits_split (s : jsstring) :
  exists ds rest,
    s = ds ++ rest /\ Forall (fun c => isDigit c = true) ds /\
    startsWithDigit rest = false.
Proof.
  induction s as [|c s (ds & rest & E & Hds & Hr)].
  - exists [], []. repeat split. constructor.
  - destruct (isDigit c) eqn:Ec.
    + exists (c :: ds), rest. split; [simpl; congruence|].
      split; [constructor; assumption | exact Hr].
    + exists [], (c :: s). split; [reflexivity|]. split; [constructor | exact Ec].
Qed.

Lemma parseInt10_afterSign (s : jsstring) :
  exists negative : bool,
    parseInt10 s =
    match readDigits false 0 (afterSign s) with
    | Some n => numberOf negative n
    | None => PNaN
    end.
Proof.
  unfold parseInt10, afterSign.
  destruct (trimStart s) as [|c t]; [exists false; reflexivity|].
  destruct (c =? 45)%N; [exists true; reflexivity|].
  destruct (c =? 43)%N; exists false; reflexivity.
Qed.

(** [parseInt(v, 10)] by the parts of [v]: white space, an optional
    sign, the digits, the rest. *)
Lemma parseInt10_parts (ws ds rest : jsstring) :
  allWhiteSpace ws -> ds <> [] ->
  Forall (fun c => isDigit c = true) ds -> startsWithDigit rest = false ->
  parseInt10 (ws ++ ds ++ rest) = numberOf false (decimal 0 ds) /\
  parseInt10 (ws ++ 43%N :: ds ++ rest) = numberOf false (decimal 0 ds) /\
  parseInt10 (ws ++ 45%N :: ds ++ rest) = numberOf true (decimal 0 ds).
Proof.
  intros Hws Hne Hds Hrest. unfold parseInt10.
  rewrite !(trimStart_ws_app ws) by exact Hws.
  pose proof (readDigits_decimal ds rest Hds Hrest false 0 (or_intror Hne)) as Hr.
  destruct ds as [|d ds]; [contradiction|].
  destruct (isDigit_facts d (Forall_inv Hds)) as (Hw & H45 & H43).
  rewrite <- !app_comm_cons in *. cbn [trimStart].
  rewrite Hw, H45, H43. change (isWhiteSpace 43) with false.
  change (isWhiteSpace 45) with false. cbn iota.
  change (43 =? 45)%N with false. change (43 =? 43)%N with true.
  change (45 =? 45)%N with true. cbn iota.
  rewrite Hr. repeat split.
Qed.

Lemma parseInt10_shape (v : jsstring) :
  startsWithDigit (afterSign v) = true ->
  exists ws ds rest,
    allWhiteSpace ws /\ ds <> [] /\
    Forall (fun c => isDigit c = true) ds /\ startsWithDigit rest = false /\
    (v = ws ++ ds ++ rest \/ v = ws ++ 43%N :: ds ++ rest \/
     v = ws ++ 45%N :: ds ++ rest).
Proof.
  unfold afterSign. intros H.
  destruct (trimStart_split v) as (ws & Ev & Hws).
  destruct (trimStart v) as [|c t] eqn:Et; [discriminate|].
  assert (Hshape : forall s, startsWithDigit s = true ->
            exists ds rest, s = ds ++ rest /\ ds <> [] /\
              Forall (fun c => isDigit c = true) ds /\
              startsWithDigit rest = false).
  { intros s Hs. destruct (digits_split s) as (ds & rest & E & Hds & Hr).
    exists ds, rest. repeat split; try assumption.
    intros ->. simpl in E. subst rest. congruence. }
  destruct (c =? 45)%N eqn:E45; [|destruct (c =? 43)%N eqn:E43];
    cbn [orb] in H.
  - apply N.eqb_eq in E45. subst c.
    destruct (Hshape t H) as (ds & rest & -> & Hne & Hds & Hr).
    exists ws, ds, rest. repeat split; try assumption. right. right. exact Ev.
  - apply N.eqb_eq in E43. subst c.
    destruct (Hshape t H) as (ds & rest & -> & Hne & Hds & Hr).
    exists ws, ds, rest. repeat split; try assumption. right. left. exact Ev.
  - destruct (Hshape (c :: t) H) as (ds & rest & E & Hne & Hds & Hr).
    exists ws, ds, rest. repeat split; try assumption. left.
    rewrite <- E. exact Ev.
Qed.

Lemma getConfig_borderRadius (params : URLSearchParams) (env : option jsstring) :
  borderRadius (getConfig params env) =
  match orNull (get params (lit "borderRadius")) with
  | Some s => Some (parseInt10 s)
  | None => None
  end.
Proof. reflexivity. Qed.

(** C8, as the code has it.  For every query string, the corner radius
    is null when the parameter is absent or empty; otherwise it is
    [parseInt(value, 10)], never null, and no error is raised.  That
    Number is NaN (not the default, not null) exactly when no decimal
    digit stands behind the leading white space and one optional sign
    of the value; otherwise the value is white space, an optional [+]
    or [-], a run of digits and a rest, and the result is the Number
    value of the integer the digits write, negated for [-]: the integer
    itself below 2^53, the nearest binary64 with ties to even beyond,
    an infinity from 2^1024 on, and -0 for a negated zero. *)
Theorem borderRadius_resolution (params : URLSearchParams)
    (env : option jsstring) :
  (get params (lit "borderRadius") = None ->
   borderRadius (getConfig params env) = None) /\
  (get params (lit "borderRadius") = Some [] ->
   borderRadius (getConfig params env) = None) /\
  (forall v, get params (lit "borderRadius") = Some v -> v <> [] ->
     borderRadius (getConfig params env) = Some (parseInt10 v) /\
     (parseInt10 v = PNaN <-> startsWithDigit (afterSign v) = false) /\
     (startsWithDigit (afterSign v) = true ->
      exists ws ds rest,
        allWhiteSpace ws /\ ds <> [] /\
        Forall (fun c => isDigit c = true) ds /\
        startsWithDigit rest = false /\
        (v = ws ++ ds ++ rest \/ v = ws ++ 43%N :: ds ++ rest \/
         v = ws ++ 45%N :: ds ++ rest)) /\
     (forall ws ds rest,
        allWhiteSpace ws -> ds <> [] ->
        Forall (fun c => isDigit c = true) ds ->
        startsWithDigit rest = false ->
        (v = ws ++ ds ++ rest ->
         parseInt10 v = numberOf false (decimal 0 ds)) /\
        (v = ws ++ 43%N :: ds ++ rest ->
         parseInt10 v = numberOf false (decimal 0 ds)) /\
        (v = ws ++ 45%N :: ds ++ rest ->
         parseInt10 v = numberOf true (decimal 0 ds)))) /\
  (forall n,
     (0 < n < 2 ^ 53 ->
      numberOf false n = PInt n /\ numberOf true n = PInt (- n)) /\
     numberOf false 0 = PInt 0 /\ numberOf true 0 = PNegZero /\
     (0 < n -> roundBinary64 n < 2 ^ 1024 ->
      numberOf false n = PInt (roundBinary64 n) /\
      numberOf true n = PInt (- roundBinary64 n)) /\
     (0 < n -> 2 ^ 1024 <= roundBinary64 n ->
      numberOf false n = PInfinity false /\
      numberOf true n = PInfinity true)).
Proof.
  rewrite getConfig_borderRadius. split; [|split; [|split]].
  - intros ->. reflexivity.
  - intros ->. reflexivity.
  - intros v -> Hv. split; [|split; [|split]].
    + destruct v; [contradiction | reflexivity].
    + destruct (parseInt10_afterSign v) as [neg E]. split.
      * intros Hn. destruct (startsWithDigit (afterSign v)) eqn:Hd;
          [|reflexivity].
        destruct (readDigits_some 0 _ Hd) as [n Hr].
        rewrite E, Hr in Hn. exfalso. exact (numberOf_not_NaN _ _ Hn).
      * intros Hd. rewrite E, (readDigits_none _ _ Hd). reflexivity.
    + apply parseInt10_shape.
    + intros ws ds rest Hws Hne Hds Hrest.
      destruct (parseInt10_parts ws ds rest Hws Hne Hds Hrest)
        as (H1 & H2 & H3).
      repeat split; intros ->; assumption.
  - intros n. split; [|split; [|split; [|split]]].
    + intros H. rewrite !numberOf_exact by lia.
      destruct (Z.eqb_spec n 0); [lia|]. split; reflexivity.
    + reflexivity.
    + reflexivity.
    + intros H0 Hr. unfold numberOf.
      destruct (Z.eqb_spec n 0); [lia|].
      destruct (Z.leb_spec (2 ^ 1024) (roundBinary64 n)); [lia|].
      split; reflexivity.
    + intros H0 Hr. unfold numberOf.
      destruct (Z.eqb_spec n 0); [lia|].
      destruct (Z.leb_spec (2 ^ 1024) (roundBinary64 n)); [|lia].
      split; reflexivity.
Qed.

Lemma borderRadius_resolution_witness :
  borderRadius (getConfig [(lit "title", lit "Support")] None) = None
  /\ borderRadius (getConfig [(lit "borderRadius", [])] None) = None
  /\ borderRadius (getConfig [(lit "borderRadius", lit " +16px")] None)
     = Some (PInt 16)
  /\ borderRadius (getConfig [(lit "borderRadius", lit "-4")] None)
     = Some (PInt (-4))
  /\ borderRadius
       (getConfig [(lit "borderRadius", lit "9007199254740993")] None)
     = Some (PInt 9007199254740992)
  /\ borderRadius (getConfig [(lit "borderRadius", lit "round")] None)
     = Some PNaN.
Proof.
  split; [|split; [|split; [|split; [|split]]]].
  - apply (proj1 (borderRadius_resolution [(lit "title", lit "Support")] None)).
    reflexivity.
  - apply (proj1 (proj2 (borderRadius_resolution
                           [(lit "borderRadius", [])] None))).
    reflexivity.
  - destruct (proj1 (proj2 (proj2 (borderRadius_resolution
                              [(lit "borderRadius", lit " +16px")] None)))
                (lit " +16px") eq_refl) as (-> & _ & _ & Hd); [discriminate|].
    rewrite (proj1 (proj2 (Hd (lit " ") (lit "16") (lit "px")
                             ltac:(repeat constructor) ltac:(discriminate)
                             ltac:(repeat constructor) eq_refl)) eq_refl).
    reflexivity.
  - destruct (proj1 (proj2 (proj2 (borderRadius_resolution
                              [(lit "borderRadius", lit "-4")] None)))
                (lit "-4") eq_refl) as (-> & _ & _ & Hd); [discriminate|].
    rewrite (proj2 (proj2 (Hd [] (lit "4") []
                             ltac:(constructor) ltac:(discriminate)
                             ltac:(repeat constructor) eq_refl)) eq_refl).
    reflexivity.
  - destruct (proj1 (proj2 (proj2 (borderRadius_resolution
                              [(lit "borderRadius", lit "9007199254740993")]
                              None)))
                (lit "9007199254740993") eq_refl) as (-> & _ & _ & Hd);
      [discriminate|].
    rewrite (proj1 (Hd [] (lit "9007199254740993") []
                      ltac:(constructor) ltac:(discriminate)
                      ltac:(repeat constructor) eq_refl) eq_refl).
    vm_compute. reflexivity.
  - destruct (proj1 (proj2 (proj2 (borderRadius_resolution
                              [(lit "borderRadius", lit "round")] None)))
                (lit "round") eq_refl) as (-> & Hn & _); [discriminate|].
    rewrite (proj2 Hn eq_refl). reflexivity.
Defined.

(** C8 as stated fails: [?borderRadius=round] does not degrade to null,
    it resolves to NaN. *)
Lemma borderRadius_resolution_counterexample :
  borderRadius (getConfig [(lit "borderRadius", lit "round")] None)
  = Some PNaN
  /\ borderRadius (getConfig [(lit "borderRadius", lit "round")] None)
     <> None.
Proof. split; [reflexivity | discriminate]. Qed.

Example parseInt10_samples :
  parseInt10 (lit "+12") = PInt 12 /\
  parseInt10 (lit "  12.5") = PInt 12 /\
  parseInt10 (lit "-0") = PNegZero /\
  parseInt10 (lit "+-5") = PNaN /\
  parseInt10 (lit "0x10") = PInt 0 /\
  parseInt10 (List.repeat 57%N 400) = PInfinity false.
Proof. vm_compute. repeat split. Qed.

(** ** Persistence: what the loaders hand to the component *)

(** Where nothing usable is stored (reading throws, no entry, the empty
    text, a text that is not JSON) both loaders return their empty
    collection; a stored text that parses is returned as parsed,
    whatever it is. *)
Lemma loaders_by_case (stored : StoredItem) :
  (stored = GetItemThrows \/ stored = Absent \/ stored = EmptyText \/
   stored = Text None ->
   loadMessages stored = JArray [] /\ loadFeedback stored = JObject []) /\
  (forall v, stored = Text (Some v) ->
     loadMessages stored = v /\ loadFeedback stored = v).
Proof.
  split.
  - intros [-> | [-> | [-> | ->]]]; split; reflexivity.
  - intros v ->. split; reflexivity.
Qed.

(** C9 does not hold of the code at a stored text [null].  The text
    parses, so nothing is caught: [loadMessages] returns null, which is
    no array, and [loadFeedback] returns null, which is no object, each
    against its declared return type; reading [messages.length] at the
    head of the component then throws a TypeError, so the widget does
    not start.  The guard around the parse was written to keep a bad
    entry from doing that. *)
Theorem load_persisted_state :
  loadMessages (Text (Some JNull)) = JNull /\
  isArray (loadMessages (Text (Some JNull))) = false /\
  lengthThrows (loadMessages (Text (Some JNull))) = Some TypeError /\
  loadFeedback (Text (Some JNull)) = JNull /\
  isPlainObject (loadFeedback (Text (Some JNull))) = false /\
  loadMessages (Text None) = JArray [] /\
  lengthThrows (loadMessages (Text None)) = None.
Proof. repeat split. Qed.
